(** * Cross-Platform Content Genie: the generation pipeline

    A shallow embedding of [types.ts], [services/geminiService.ts] and the
    [App] component's [handleGenerate], with the properties of the pipeline
    stated over it.

    - JavaScript strings are sequences of UTF-16 code units.
    - The two hosted services, [JSON.parse], [console.error] and the React
      state setters are events of a small free monad [Prog]; a [World]
      answers the service calls, and [run] threads the component state and
      a log of every exchange.
    - [throw]/[try]/[catch] are a [Result] carried by the program. *)

From Stdlib Require Import List ZArith NArith Bool Lia String Ascii.
From Stdlib Require Import Permutation Sorted.
Import ListNotations.

Set Implicit Arguments.
Local Open Scope list_scope.

(* ===================================================================== *)
(** * JavaScript strings *)
(* ===================================================================== *)

(** A JS string is a finite sequence of UTF-16 code units. *)
Definition jsstring := list N.

(** An ASCII literal of the source, one code unit per character. *)
Definition lit (s : string) : jsstring :=
  map N_of_ascii (list_ascii_of_string s).

(** Strict equality [===] on strings. *)
Definition jseq (a b : jsstring) : bool :=
  if list_eq_dec N.eq_dec a b then true else false.

(** The empty string literal. *)
Definition empty_string : jsstring := [].

(** The double quote and the line feed of the template literals. *)
Definition dquote : jsstring := [34%N].
Definition nl : jsstring := [10%N].

(** ECMAScript [WhiteSpace] and [LineTerminator] code units: what
    [String.prototype.trim] strips. *)
Definition is_white_space (c : N) : bool :=
  ((9 <=? c) && (c <=? 13) (* TAB, LF, VT, FF, CR *)
   || (c =? 32) || (c =? 160)
   || (c =? 5760)                       (* U+1680 *)
   || ((8192 <=? c) && (c <=? 8202))    (* U+2000 .. U+200A *)
   || (c =? 8232) || (c =? 8233)        (* U+2028, U+2029 *)
   || (c =? 8239) || (c =? 8287)        (* U+202F, U+205F *)
   || (c =? 12288) || (c =? 65279))%N.  (* U+3000, U+FEFF *)

Fixpoint trimStart (s : jsstring) : jsstring :=
  match s with
  | [] => []
  | c :: r => if is_white_space c then trimStart r else s
  end.

Definition trimEnd (s : jsstring) : jsstring := rev (trimStart (rev s)).

(** [s.trim()] *)
Definition trim (s : jsstring) : jsstring := trimEnd (trimStart s).

(** Truthiness of a string: only the empty string is falsy. *)
Definition truthy (s : jsstring) : bool :=
  match s with [] => false | _ :: _ => true end.

(** [a || b] on strings. *)
Definition or_else (a b : jsstring) : jsstring := if truthy a then a else b.

(** A string made of white space only (the empty string included). *)
Definition blank (s : jsstring) : Prop := Forall (fun c => is_white_space c = true) s.

(* ===================================================================== *)
(** * types.ts *)
(* ===================================================================== *)

Inductive Tone := Professional | Witty | Urgent.

(** The string value of each member of the [Tone] enum. *)
Definition Tone_value (t : Tone) : jsstring :=
  match t with
  | Professional => lit "Professional"
  | Witty => lit "Witty"
  | Urgent => lit "Urgent"
  end.

(** [SocialPlatform] is a union of three string literals; at run time a
    platform is a string, and nothing checks the parsed service response
    against the union, so the field is a string here. *)
Definition SocialPlatform := jsstring.
Definition LinkedIn : SocialPlatform := lit "LinkedIn".
Definition Twitter : SocialPlatform := lit "Twitter".
Definition Instagram : SocialPlatform := lit "Instagram".

Record PostContent := {
  platform : SocialPlatform;
  text : jsstring;
  image_prompt : jsstring
}.

(** [GenerationResult extends PostContent]. [imageUrl] is declared a
    string; it is read from an array by index, which yields [undefined]
    past the end, so [None] stands for [undefined]. *)
Record GenerationResult := {
  content :> PostContent;
  imageUrl : option jsstring
}.

Inductive AspectRatio := Ratio_4_3 | Ratio_16_9 | Ratio_1_1.

Definition AspectRatio_value (r : AspectRatio) : jsstring :=
  match r with
  | Ratio_4_3 => lit "4:3"
  | Ratio_16_9 => lit "16:9"
  | Ratio_1_1 => lit "1:1"
  end.

(* ===================================================================== *)
(** * Errors, promises *)
(* ===================================================================== *)

(** [new Error(message)] *)
Record JsError := Error { message : jsstring }.

(** Normal completion or a thrown error. *)
Inductive Result (A : Type) :=
| Ok (a : A)
| Throw (e : JsError).
Arguments Ok {A} a.
Arguments Throw {A} e.

(** A settled promise: when it settled (a position in the event loop's
    order) and how. *)
Record Promise (A : Type) := {
  settled_at : nat;
  outcome : Result A
}.

(** The earliest rejection among the promises, the first of them in the
    list when several settle together. *)
Fixpoint first_rejection {A} (ps : list (Promise A)) : option (nat * JsError) :=
  match ps with
  | [] => None
  | p :: r =>
      match outcome p, first_rejection r with
      | Ok _, later => later
      | Throw e, None => Some (settled_at p, e)
      | Throw e, Some (t, e') =>
          if (settled_at p <=? t)%nat then Some (settled_at p, e) else Some (t, e')
      end
  end.

(** The values of the fulfilled promises, in the order of the list. *)
Fixpoint fulfilled_values {A} (ps : list (Promise A)) : list A :=
  match ps with
  | [] => []
  | p :: r =>
      match outcome p with
      | Ok a => a :: fulfilled_values r
      | Throw _ => fulfilled_values r
      end
  end.

(** [await Promise.all(ps)]: the values in the order of [ps] when every
    promise is fulfilled, otherwise the reason of the first one to
    reject. *)
Definition Promise_all {A} (ps : list (Promise A)) : Result (list A) :=
  match first_rejection ps with
  | Some (_, e) => Throw e
  | None => Ok (fulfilled_values ps)
  end.

(* ===================================================================== *)
(** * Arrays *)
(* ===================================================================== *)

(** [arr.indexOf(x)] on an array of strings: the first index holding [x],
    or -1. *)
Fixpoint indexOf_from (arr : list jsstring) (x : jsstring) (i : Z) : Z :=
  match arr with
  | [] => (-1)%Z
  | y :: r => if jseq y x then i else indexOf_from r x (i + 1)%Z
  end.

Definition indexOf (arr : list jsstring) (x : jsstring) : Z := indexOf_from arr x 0.

Section ArraySort.
Variable A : Type.
(** The comparator: negative puts [a] first, positive puts [b] first. *)
Variable comparefn : A -> A -> Z.

(** [x] stood before every element of [l]: it moves past the elements
    that the comparator orders strictly before it, and no further. *)
Fixpoint sort_insert (x : A) (l : list A) : list A :=
  match l with
  | [] => [x]
  | y :: r => if (comparefn x y >? 0)%Z then y :: sort_insert x r else x :: y :: r
  end.

(** [arr.sort(comparefn)]: a stable sort (ECMAScript 2019). *)
Fixpoint Array_sort (arr : list A) : list A :=
  match arr with
  | [] => []
  | x :: r => sort_insert x (Array_sort r)
  end.
End ArraySort.

(** [arr.map((x, index) => f x index)] *)
Fixpoint mapi_from {A B} (f : A -> nat -> B) (i : nat) (arr : list A) : list B :=
  match arr with
  | [] => []
  | x :: r => f x i :: mapi_from f (S i) r
  end.

Definition mapi {A B} (f : A -> nat -> B) (arr : list A) : list B := mapi_from f 0 arr.

(* ===================================================================== *)
(** * The outside world: services, JSON.parse, console, React state *)
(* ===================================================================== *)

(** [new GoogleGenAI({ apiKey })] *)
Record GoogleGenAI := { apiKey : jsstring }.

(** The part of [responseSchema] that constrains the reply: the allowed
    platform names and the required properties of each item. *)
Record Schema := {
  platform_enum : list jsstring;
  required : list jsstring
}.

(** Argument of [ai.models.generateContent]. *)
Record GenerateContentParameters := {
  model : jsstring;
  contents : jsstring;
  responseMimeType : jsstring;
  responseSchema : Schema
}.

(** Argument of [ai.models.generateImages]. *)
Record GenerateImagesParameters := {
  images_model : jsstring;
  prompt : jsstring;
  numberOfImages : N;
  outputMimeType : jsstring;
  aspectRatio : AspectRatio
}.

(** What the text service answers: [response.text] is a string or
    [undefined]. *)
Record GenerateContentResponse := { response_text : option jsstring }.

(** What the image service answers, as far as the code reads it. *)
Inductive GenerateImagesResponse :=
| NoFirstImage
    (** [generatedImages] is missing or empty, or its first entry has no
        [image]: reading [.generatedImages[0].image.imageBytes] throws *)
| FirstImage (imageBytes : option jsstring)
    (** the first image's [imageBytes], a string or [undefined] *).

(** What [JSON.parse] does with a text.  The cast [as PostContent[]] is
    not checked at run time: an array is taken to hold post objects, as
    the response schema asks of the service. *)
Inductive ParsedJSON :=
| ParseSyntaxError            (** [JSON.parse] throws *)
| ParsedNotArray              (** a value without a [sort] method *)
| ParsedArray (posts : list PostContent).

(** The component state of [App] ([useState]). *)
Record AppState := {
  idea : jsstring;
  tone : Tone;
  results : option (list GenerationResult);
  loading : bool;
  error : option jsstring
}.

(** Everything the code does to its environment; the index is the type
    of the answer. *)
Inductive Event : Type -> Type :=
| generateContent (ai : GoogleGenAI) (params : GenerateContentParameters)
    : Event (Promise GenerateContentResponse)
| generateImages (ai : GoogleGenAI) (params : GenerateImagesParameters)
    : Event (Promise GenerateImagesResponse)
| JSON_parse (jsonText : jsstring) : Event ParsedJSON
| console_error (label : jsstring) (e : JsError) : Event unit
| setError (v : option jsstring) : Event unit
| setResults (v : option (list GenerationResult)) : Event unit
| setLoading (v : bool) : Event unit.

(** Programs: a tree of events, each continued on its answer. *)
Inductive Prog (A : Type) : Type :=
| Ret (a : A)
| Vis (X : Type) (e : Event X) (k : X -> Prog A).
Arguments Ret {A} a.
Arguments Vis {A X} e k.

Fixpoint bind {A B} (p : Prog A) (f : A -> Prog B) : Prog B :=
  match p with
  | Ret a => f a
  | Vis e k => Vis e (fun x => bind (k x) f)
  end.

Definition trigger {X} (e : Event X) : Prog X := Vis e Ret.

Declare Scope prog_scope.
Delimit Scope prog_scope with prog.
Notation "x <- p ;; q" := (bind p (fun x => q))
  (at level 100, p at next level, right associativity) : prog_scope.
Notation "p ;; q" := (bind p (fun _ => q))
  (at level 100, right associativity) : prog_scope.
(** Sequencing that stops at a thrown error. *)
Notation "x <-! p ;; q" :=
  (bind p (fun r => match r with Ok x => q | Throw e => Ret (Throw e) end))
  (at level 100, p at next level, right associativity) : prog_scope.
Local Open Scope prog_scope.

(** [try { body } catch (e) { handler e }] *)
Definition try_catch {A} (body : Prog (Result A)) (handler : JsError -> Prog (Result A))
  : Prog (Result A) :=
  r <- body ;;
  match r with
  | Ok a => Ret (Ok a)
  | Throw e => handler e
  end.

(** [try { body } finally { cleanup }], for a cleanup that does not throw. *)
Definition try_finally {A} (body : Prog (Result A)) (cleanup : Prog unit)
  : Prog (Result A) :=
  r <- body ;; cleanup ;; Ret r.

(** An [async] function whose one [await] is on the call [e]: the body
    runs up to the call, resumes with its outcome when it settles, and
    the promise the function returned settles then. *)
Definition async_await {X A} (e : Event (Promise X)) (resume : Result X -> Prog (Result A))
  : Prog (Promise A) :=
  awaited <- trigger e ;;
  r <- resume (outcome awaited) ;;
  Ret {| settled_at := settled_at awaited; outcome := r |}.

(** [await p] where [p] is the promise of a call just made. *)
Definition await {A} (call : Prog (Promise A)) : Prog (Result A) :=
  p <- call ;; Ret (outcome p).

(** Run each program of the list in turn, as [arr.map(f)] does for an [f]
    with effects. *)
Fixpoint sequence {A} (ps : list (Prog A)) : Prog (list A) :=
  match ps with
  | [] => Ret []
  | p :: r => a <- p ;; l <- sequence r ;; Ret (a :: l)
  end.

(** One line of the log: an event and its answer. *)
Inductive Entry : Type :=
| Exchange (X : Type) (e : Event X) (reply : X).
Arguments Exchange {X} e reply.

Definition is_generateContent (en : Entry) : bool :=
  match en with Exchange (generateContent _ _) _ => true | _ => false end.

Definition is_generateImages (en : Entry) : bool :=
  match en with Exchange (generateImages _ _) _ => true | _ => false end.

(** A network call is a call to one of the two hosted services. *)
Definition is_network_call (en : Entry) : bool :=
  is_generateContent en || is_generateImages en.

(** How many calls of a kind the log holds. *)
Definition calls (kind : Entry -> bool) (log : list Entry) : nat :=
  List.length (filter kind log).

(** The world decides the answers.  A service may answer each call
    differently: it is given the number of earlier calls to it. *)
Record World := {
  content_service : nat -> GoogleGenAI -> GenerateContentParameters
                    -> Promise GenerateContentResponse;
  image_service : nat -> GoogleGenAI -> GenerateImagesParameters
                  -> Promise GenerateImagesResponse;
  parse_json : jsstring -> ParsedJSON
}.

(** The state after a setter. *)
Definition with_error (st : AppState) (v : option jsstring) : AppState :=
  {| idea := idea st; tone := tone st; results := results st;
     loading := loading st; error := v |}.

Definition with_results (st : AppState) (v : option (list GenerationResult)) : AppState :=
  {| idea := idea st; tone := tone st; results := v;
     loading := loading st; error := error st |}.

Definition with_loading (st : AppState) (v : bool) : AppState :=
  {| idea := idea st; tone := tone st; results := results st;
     loading := v; error := error st |}.

(** One event: its answer and the state after it. *)
Definition handle (w : World) (log : list Entry) (st : AppState) X (e : Event X)
  : X * AppState :=
  match e in Event X return X * AppState with
  | generateContent ai params =>
      (content_service w (calls is_generateContent log) ai params, st)
  | generateImages ai params =>
      (image_service w (calls is_generateImages log) ai params, st)
  | JSON_parse jsonText => (parse_json w jsonText, st)
  | console_error _ _ => (tt, st)
  | setError v => (tt, with_error st v)
  | setResults v => (tt, with_results st v)
  | setLoading v => (tt, with_loading st v)
  end.

(** Run a program: its value, the final state and the log, oldest entry
    first.  A service call is logged with its reply where the call is
    made; when the reply arrived is the [settled_at] of the promise. *)
Fixpoint run {A} (w : World) (p : Prog A) (st : AppState) (log : list Entry)
  : A * AppState * list Entry :=
  match p with
  | Ret a => (a, st, log)
  | Vis e k =>
      let (x, st') := handle w log st e in
      run w (k x) st' (log ++ [Exchange e x])
  end.

(* ===================================================================== *)
(** * services/geminiService.ts *)
(* ===================================================================== *)

(** Errors the engine raises itself; the code only logs them, and their
    message text is the engine's. *)
Definition TypeError : JsError := Error (lit "TypeError").
Definition SyntaxError : JsError := Error (lit "SyntaxError").

(** [`${x}`] for a string or [undefined]. *)
Definition template_value (x : option jsstring) : jsstring :=
  match x with
  | Some s => s
  | None => lit "undefined"
  end.

(** Module initialisation, lines 5-9: [API_KEY] is the value of
    [process.env.API_KEY], [None] when the variable is not set.  The
    module's top level either throws or binds the client [ai]. *)
Definition module_initialization (API_KEY : option jsstring) : Result GoogleGenAI :=
  match API_KEY with
  | None => Throw (Error (lit "API_KEY environment variable is not set"))
  | Some key =>
      if negb (truthy key) then
        Throw (Error (lit "API_KEY environment variable is not set"))
      else
        Ok {| apiKey := key |}
  end.

Definition responseSchema_ : Schema := {|
  platform_enum := [lit "LinkedIn"; lit "Twitter"; lit "Instagram"];
  required := [lit "platform"; lit "text"; lit "image_prompt"]
|}.

(** The template literal of lines 35-47. *)
Definition social_posts_prompt (idea : jsstring) (tone : Tone) : jsstring :=
  nl ++ lit "    Based on the following idea and tone, generate tailored social media posts for LinkedIn, Twitter, and Instagram." ++ nl
  ++ nl
  ++ lit "    **Idea:** " ++ dquote ++ idea ++ dquote ++ nl
  ++ lit "    **Tone:** " ++ dquote ++ Tone_value tone ++ dquote ++ nl
  ++ nl
  ++ lit "    **Platform-specific Instructions:**" ++ nl
  ++ lit "    - **LinkedIn:** Create a professional, long-form post (2-3 paragraphs) that encourages discussion and engagement." ++ nl
  ++ lit "    - **Twitter:** Write a short, punchy tweet (under 280 characters) with a clear call-to-action or a thought-provoking question." ++ nl
  ++ lit "    - **Instagram:** Craft a visually-focused caption. Start with a hook, provide some value, and include 3-5 relevant hashtags at the end." ++ nl
  ++ nl
  ++ lit "    For each post, also create a concise, descriptive prompt for an AI image generator that visually captures the essence of the post." ++ nl
  ++ lit "  ".

Definition platformOrder : list SocialPlatform := [LinkedIn; Twitter; Instagram].

(** The comparator of line 64. *)
Definition by_platformOrder (a b : PostContent) : Z :=
  (indexOf platformOrder (platform a) - indexOf platformOrder (platform b))%Z.

Definition content_failure : JsError :=
  Error (lit "Failed to generate content. Please check your input and try again.").

Definition generateSocialPosts (ai : GoogleGenAI) (idea : jsstring) (tone : Tone)
  : Prog (Promise (list PostContent)) :=
  let prompt := social_posts_prompt idea tone in
  async_await
    (generateContent ai {| model := lit "gemini-2.5-pro";
                           contents := prompt;
                           responseMimeType := lit "application/json";
                           responseSchema := responseSchema_ |})
    (fun awaited =>
       try_catch
         (response <-! Ret awaited ;;
          jsonText <-! Ret (match response_text response with
                            | Some t => Ok (trim t)
                            | None => Throw TypeError
                            end) ;;
          parsedResponse <- trigger (JSON_parse jsonText) ;;
          match parsedResponse with
          | ParseSyntaxError => Ret (Throw SyntaxError)
          | ParsedNotArray => Ret (Throw TypeError)
          | ParsedArray parsedResponse =>
              (* Ensure the order is consistent *)
              Ret (Ok (Array_sort by_platformOrder parsedResponse))
          end)
         (fun error =>
            trigger (console_error (lit "Error generating social posts:") error) ;;
            Ret (Throw content_failure))).

(** The style qualifier of line 77, put before the caller's prompt. *)
Definition styled_prompt (prompt : jsstring) : jsstring :=
  lit "High-quality, professional photograph style: " ++ prompt.

Definition image_failure : JsError :=
  Error (lit "Failed to generate an image for the post.").

Definition generateImage (ai : GoogleGenAI) (prompt : jsstring) (aspectRatio : AspectRatio)
  : Prog (Promise jsstring) :=
  async_await
    (generateImages ai {| images_model := lit "imagen-4.0-generate-001";
                          prompt := styled_prompt prompt;
                          numberOfImages := 1;
                          outputMimeType := lit "image/jpeg";
                          aspectRatio := aspectRatio |})
    (fun awaited =>
       try_catch
         (response <-! Ret awaited ;;
          match response with
          | NoFirstImage => Ret (Throw TypeError)
          | FirstImage base64ImageBytes =>
              Ret (Ok (lit "data:image/jpeg;base64," ++ template_value base64ImageBytes))
          end)
         (fun error =>
            trigger (console_error (lit "Error generating image:") error) ;;
            Ret (Throw image_failure))).

(** What the module exports once it has loaded. *)
Record geminiService := {
  export_generateSocialPosts : jsstring -> Tone -> Prog (Promise (list PostContent));
  export_generateImage : jsstring -> AspectRatio -> Prog (Promise jsstring)
}.

(** Importing the module: its top level runs first, and the exports
    exist only if it did not throw. *)
Definition import_geminiService (API_KEY : option jsstring) : Result geminiService :=
  match module_initialization API_KEY with
  | Throw e => Throw e
  | Ok ai => Ok {| export_generateSocialPosts := generateSocialPosts ai;
                   export_generateImage := generateImage ai |}
  end.

(* ===================================================================== *)
(** * App.tsx *)
(* ===================================================================== *)

Module ResultCard.
Inductive Icon := LinkedInIcon | TwitterIcon | InstagramIcon.

Record Config := {
  icon : Icon;
  aspectRatio : AspectRatio;
  color : jsstring
}.

(** [platformConfig[platform]]: the record has the three platform keys,
    any other key reads [undefined]. *)
Definition platformConfig (platform : SocialPlatform) : option Config :=
  if jseq platform (lit "LinkedIn") then
    Some {| icon := LinkedInIcon; aspectRatio := Ratio_4_3; color := lit "text-blue-400" |}
  else if jseq platform (lit "Twitter") then
    Some {| icon := TwitterIcon; aspectRatio := Ratio_16_9; color := lit "text-white" |}
  else if jseq platform (lit "Instagram") then
    Some {| icon := InstagramIcon; aspectRatio := Ratio_1_1; color := lit "text-pink-500" |}
  else None.
End ResultCard.

Definition getAspectRatioForPlatform (platform : SocialPlatform) : AspectRatio :=
  if jseq platform (lit "LinkedIn") then Ratio_4_3
  else if jseq platform (lit "Twitter") then Ratio_16_9
  else if jseq platform (lit "Instagram") then Ratio_1_1
  else Ratio_1_1.

Definition validation_message : jsstring := lit "Please enter an idea.".

(** The body of the [try] block of [handleGenerate], lines 96-114. *)
Definition generate_and_illustrate (ai : GoogleGenAI) (idea : jsstring) (tone : Tone)
  : Prog (Result unit) :=
  postContents <-! await (generateSocialPosts ai idea tone) ;;
  let initialResults :=
    map (fun content => {| content := content; imageUrl := Some empty_string |}) postContents in
  trigger (setResults (Some initialResults)) ;;
  imagePromises <-
    sequence (map (fun content =>
                     generateImage ai (image_prompt content)
                       (getAspectRatioForPlatform (platform content)))
                  postContents) ;;
  imageUrls <-! Ret (Promise_all imagePromises) ;;
  let finalResults :=
    mapi (fun (result : GenerationResult) index =>
            {| content := content result; imageUrl := nth_error imageUrls index |})
         initialResults in
  trigger (setResults (Some finalResults)) ;;
  Ret (Ok tt).

(** [handleGenerate], closed over the [idea] and [tone] of the render it
    was created in. *)
Definition handleGenerate (ai : GoogleGenAI) (idea : jsstring) (tone : Tone) : Prog unit :=
  if negb (truthy (trim idea)) then
    trigger (setError (Some validation_message))
  else
    trigger (setLoading true) ;;
    trigger (setError None) ;;
    trigger (setResults None) ;;
    try_finally
      (try_catch
         (generate_and_illustrate ai idea tone)
         (fun e =>
            trigger (setError (Some (or_else (message e) (lit "An unexpected error occurred.")))) ;;
            trigger (setResults None) ;;
            Ret (Ok tt)))
      (trigger (setLoading false)) ;;
    Ret tt.

(** Pressing the button in state [st]: the final state and the log. *)
Definition submit (w : World) (ai : GoogleGenAI) (st : AppState) : AppState * list Entry :=
  let '(_, st', log) := run w (handleGenerate ai (idea st) (tone st)) st [] in
  (st', log).

(* ===================================================================== *)
(** * Observations on runs *)
(* ===================================================================== *)

Definition value_of {A} (r : A * AppState * list Entry) : A := fst (fst r).
Definition state_of {A} (r : A * AppState * list Entry) : AppState := snd (fst r).
Definition log_of {A} (r : A * AppState * list Entry) : list Entry := snd r.

(** The request and the reply of an event, if it is an image call. *)
Definition image_exchange X (e : Event X)
  : X -> list (GenerateImagesParameters * Promise GenerateImagesResponse) :=
  match e in Event X
        return X -> list (GenerateImagesParameters * Promise GenerateImagesResponse) with
  | generateImages _ params => fun reply => [(params, reply)]
  | _ => fun _ => []
  end.

(** The calls to the image service that a log records, oldest first. *)
Definition image_exchanges (log : list Entry)
  : list (GenerateImagesParameters * Promise GenerateImagesResponse) :=
  flat_map (fun en => match en with Exchange e reply => image_exchange e reply end) log.

(** The prompts handed to the image service, in the order of the calls. *)
Definition dispatched_image_prompts (log : list Entry) : list jsstring :=
  map (fun x => prompt (fst x)) (image_exchanges log).

(** The position of a post's platform in [platformOrder] (-1 when it is
    none of the three). *)
Definition platform_rank (p : PostContent) : Z := indexOf platformOrder (platform p).

Definition rank_le (a b : PostContent) : Prop := (platform_rank a <= platform_rank b)%Z.
Definition rank_lt (a b : PostContent) : Prop := (platform_rank a < platform_rank b)%Z.

(** The request [generateImage] sends. *)
Definition generateImage_request (prompt : jsstring) (aspectRatio : AspectRatio)
  : GenerateImagesParameters :=
  {| images_model := lit "imagen-4.0-generate-001";
     prompt := styled_prompt prompt;
     numberOfImages := 1;
     outputMimeType := lit "image/jpeg";
     aspectRatio := aspectRatio |}.

(** The request [handleGenerate] has [generateImage] send for a post. *)
Definition image_request (post : PostContent) : GenerateImagesParameters :=
  generateImage_request (image_prompt post) (getAspectRatioForPlatform (platform post)).

(** The request [generateSocialPosts] sends. *)
Definition content_request (idea : jsstring) (tone : Tone) : GenerateContentParameters :=
  {| model := lit "gemini-2.5-pro";
     contents := social_posts_prompt idea tone;
     responseMimeType := lit "application/json";
     responseSchema := responseSchema_ |}.

(** What [generateSocialPosts] makes of the service's reply: the sorted
    array when the reply has a text that parses to an array, the generic
    failure in every other case. *)
Definition social_posts_outcome (reply : Promise GenerateContentResponse)
    (parse : jsstring -> ParsedJSON) : Result (list PostContent) :=
  match outcome reply with
  | Throw _ => Throw content_failure
  | Ok response =>
      match response_text response with
      | None => Throw content_failure
      | Some t =>
          match parse (trim t) with
          | ParsedArray posts => Ok (Array_sort by_platformOrder posts)
          | _ => Throw content_failure
          end
      end
  end.

Definition social_posts_promise (reply : Promise GenerateContentResponse)
    (parse : jsstring -> ParsedJSON) : Promise (list PostContent) :=
  {| settled_at := settled_at reply; outcome := social_posts_outcome reply parse |}.

(** An image call fails when the service rejects it or answers without a
    first image. *)
Definition image_call_failed (reply : Promise GenerateImagesResponse) : bool :=
  match outcome reply with
  | Throw _ => true
  | Ok NoFirstImage => true
  | Ok (FirstImage _) => false
  end.

(** The promise [generateImage] returns, given the service's reply. *)
Definition image_promise (reply : Promise GenerateImagesResponse) : Promise jsstring :=
  {| settled_at := settled_at reply;
     outcome := match outcome reply with
                | Ok (FirstImage bytes) =>
                    Ok (lit "data:image/jpeg;base64," ++ template_value bytes)
                | _ => Throw image_failure
                end |}.

(** The promises [handleGenerate] collects for [posts], when [n] image
    calls were made before: the [i]-th post's call is call [n + i]. *)
Definition image_promises (w : World) (ai : GoogleGenAI) (n : nat) (posts : list PostContent)
  : list (Promise jsstring) :=
  mapi_from (fun post i => image_promise (image_service w i ai (image_request post))) n posts.

(** The fan-out of lines 104-106: one call per post, in order. *)
Definition fan_out (ai : GoogleGenAI) (posts : list PostContent)
  : Prog (list (Promise jsstring)) :=
  sequence (map (fun content =>
                   generateImage ai (image_prompt content)
                     (getAspectRatioForPlatform (platform content)))
                posts).

(** The result sets of lines 98-101 and 110-113. *)
Definition initial_results (posts : list PostContent) : list GenerationResult :=
  map (fun content => {| content := content; imageUrl := Some empty_string |}) posts.

Definition final_results (posts : list PostContent) (imageUrls : list jsstring)
  : list GenerationResult :=
  mapi (fun (result : GenerationResult) index =>
          {| content := content result; imageUrl := nth_error imageUrls index |})
       (initial_results posts).

(** The state in which the [try] block of [handleGenerate] starts. *)
Definition started (st : AppState) : AppState :=
  with_results (with_error (with_loading st true) None) None.

(** The state its [catch] and [finally] blocks leave. *)
Definition failed (st : AppState) (e : JsError) : AppState :=
  with_loading
    (with_results
       (with_error st (Some (or_else (message e) (lit "An unexpected error occurred."))))
       None)
    false.

(** The image calls [handleGenerate] makes for [posts], with the replies
    of the world [w], when [n] image calls were made before. *)
Definition image_calls (w : World) (ai : GoogleGenAI) (n : nat) (posts : list PostContent)
  : list (GenerateImagesParameters * Promise GenerateImagesResponse) :=
  mapi_from (fun post i => (image_request post, image_service w i ai (image_request post)))
            n posts.

(** The list a response must be for the output to be one post per
    platform in the fixed order. *)
Definition one_per_platform_in_order (posts : list PostContent) : Prop :=
  map platform posts = [LinkedIn; Twitter; Instagram].

(* ===================================================================== *)
(** * Example data *)
(* ===================================================================== *)

Module Example.

Definition ai : GoogleGenAI := {| apiKey := lit "secret" |}.

Definition linkedin_post : PostContent :=
  {| platform := LinkedIn;
     text := lit "Productivity is a habit.";
     image_prompt := lit "A tidy desk at sunrise" |}.

Definition twitter_post : PostContent :=
  {| platform := Twitter;
     text := lit "Ship more, stress less. Try it?";
     image_prompt := lit "A rocket made of sticky notes" |}.

Definition instagram_post : PostContent :=
  {| platform := Instagram;
     text := lit "Your day, decluttered. #focus #flow #apps";
     image_prompt := lit "A phone on a marble table" |}.

(** The JSON text of a post and of an array of posts (for strings that
    need no escaping). *)
Definition quoted (s : jsstring) : jsstring := dquote ++ s ++ dquote.

Definition post_json (p : PostContent) : jsstring :=
  lit "{" ++ quoted (lit "platform") ++ lit ":" ++ quoted (platform p) ++ lit ","
  ++ quoted (lit "text") ++ lit ":" ++ quoted (text p) ++ lit ","
  ++ quoted (lit "image_prompt") ++ lit ":" ++ quoted (image_prompt p) ++ lit "}".

Fixpoint posts_json_items (l : list PostContent) : jsstring :=
  match l with
  | [] => []
  | [p] => post_json p
  | p :: r => post_json p ++ lit "," ++ posts_json_items r
  end.

Definition posts_json (l : list PostContent) : jsstring :=
  lit "[" ++ posts_json_items l ++ lit "]".

(** A world whose text service answers with the JSON of [posts], padded
    with white space, whose [JSON.parse] reads that text back, and whose
    image service answers call [i] with [images i]. *)
Definition scripted (posts : list PostContent)
    (images : nat -> Promise GenerateImagesResponse) : World :=
  {| content_service := fun _ _ _ =>
       {| settled_at := 1;
          outcome := Ok {| response_text := Some (lit " " ++ posts_json posts ++ nl) |} |};
     image_service := fun i _ _ => images i;
     parse_json := fun s =>
       if jseq s (posts_json posts) then ParsedArray posts else ParseSyntaxError |}.

(** A world whose text service is down. *)
Definition text_service_down : World :=
  {| content_service := fun _ _ _ =>
       {| settled_at := 1; outcome := Throw (Error (lit "503 Service Unavailable")) |};
     image_service := fun _ _ _ =>
       {| settled_at := 2; outcome := Ok (FirstImage (Some (lit "AAAA"))) |};
     parse_json := fun _ => ParseSyntaxError |}.

(** Every image arrives; later calls settle earlier. *)
Definition all_images (i : nat) : Promise GenerateImagesResponse :=
  {| settled_at := 9 - i; outcome := Ok (FirstImage (Some (lit "AAAA"))) |}.

(** The second image call is rejected, the others deliver. *)
Definition second_image_rejected (i : nat) : Promise GenerateImagesResponse :=
  if Nat.eqb i 1 then
    {| settled_at := 2; outcome := Throw (Error (lit "429 Too Many Requests")) |}
  else all_images i.

Definition fresh : AppState :=
  {| idea := lit "Launch a new productivity app"; tone := Witty;
     results := None; loading := false; error := None |}.

(** A state that shows the results of an earlier request, with only
    white space typed as the next idea. *)
Definition showing_results : AppState :=
  {| idea := [32; 9; 10]%N; tone := Urgent;
     results := Some [ {| content := twitter_post;
                          imageUrl := Some (lit "data:image/jpeg;base64,AAAA") |} ];
     loading := false; error := None |}.

End Example.

(* ===================================================================== *)
(** * App.tsx: the components *)
(* ===================================================================== *)

(** [Object.keys(Tone)]: the members of the enum, in declaration order. *)
Definition Tone_keys : list Tone := [Professional; Witty; Urgent].

(** The name of a member ([key]); [Tone_value] is [Tone[key]]. *)
Definition Tone_key (t : Tone) : jsstring :=
  match t with
  | Professional => lit "Professional"
  | Witty => lit "Witty"
  | Urgent => lit "Urgent"
  end.

(** A [<button>] of [ToneSelector]; [button_onClick] is the tone its
    click hands to [onSelectTone]. *)
Record ToneButton := {
  button_key : jsstring;
  button_onClick : Tone;
  button_className : jsstring;
  button_children : jsstring
}.

Definition tone_button_base : jsstring :=
  lit "px-4 py-2 text-sm sm:text-base sm:px-6 sm:py-2.5 font-semibold rounded-full transition-all duration-300 ease-in-out transform hover:scale-105 ".

Definition tone_button_selected : jsstring :=
  lit "bg-purple-600 text-white ring-2 ring-purple-400 shadow-lg".

Definition tone_button_unselected : jsstring :=
  lit "bg-gray-700 text-gray-300 hover:bg-gray-600".

(** [ToneSelector], lines 7-25: one button per member of [Tone]. *)
Definition ToneSelector (selectedTone : Tone) : list ToneButton :=
  map (fun key =>
         {| button_key := Tone_key key;
            button_onClick := key;
            button_className :=
              tone_button_base ++
              (if jseq (Tone_value selectedTone) (Tone_value key)
               then tone_button_selected else tone_button_unselected);
            button_children := Tone_value key |})
      Tone_keys.

(** The button carries the styling of the selected tone. *)
Definition highlighted (b : ToneButton) : bool :=
  jseq (button_className b) (tone_button_base ++ tone_button_selected).

(** [obj[key]] on an object literal given by its entries: the value of
    the key, or [undefined]. *)
Fixpoint property_of {A} (obj : list (jsstring * A)) (key : jsstring) : option A :=
  match obj with
  | [] => None
  | (k, v) :: r => if jseq k key then Some v else property_of r key
  end.

(** The table of lines 28-32, read at [aspectRatio]; the prop is an
    aspect ratio or, when [ResultCard] had none to pass, [undefined],
    which as a key is the string "undefined". *)
Definition ratioClass (aspectRatio : option AspectRatio) : option jsstring :=
  property_of [ (lit "1:1", lit "aspect-square");
                (lit "4:3", lit "aspect-[4/3]");
                (lit "16:9", lit "aspect-video") ]
              (match aspectRatio with
               | Some ratio => AspectRatio_value ratio
               | None => lit "undefined"
               end).

(** [ImagePlaceholder], lines 27-41: the class of its [<div>]. *)
Definition ImagePlaceholder (aspectRatio : option AspectRatio) : jsstring :=
  lit "w-full bg-gray-700 animate-pulse " ++ template_value (ratioClass aspectRatio).

(** The property names every object literal inherits from
    [Object.prototype] in a browser: read on [platformConfig] they give a
    value that is not [undefined]. *)
Definition Object_prototype_properties : list jsstring :=
  [lit "constructor"; lit "hasOwnProperty"; lit "isPrototypeOf";
   lit "propertyIsEnumerable"; lit "toLocaleString"; lit "toString"; lit "valueOf";
   lit "__proto__"; lit "__defineGetter__"; lit "__defineSetter__";
   lit "__lookupGetter__"; lit "__lookupSetter__"].

Definition inherited_property (key : jsstring) : bool :=
  existsb (jseq key) Object_prototype_properties.

(** What a card shows above the text. *)
Inductive Media :=
| img (src alt : jsstring)
| placeholder (className : jsstring).

Record Card := {
  card_header_className : jsstring;
  card_icon : option ResultCard.Icon;
  card_title : jsstring;
  card_media : Media;
  card_text : jsstring
}.

(** Truthiness of a string or [undefined]. *)
Definition truthy_value (x : option jsstring) : bool :=
  match x with
  | Some s => truthy s
  | None => false
  end.

(** [ResultCard], lines 43-67.  [platformConfig[platform]] is the entry
    of one of the three platforms, or a value inherited from
    [Object.prototype], which has no [icon], [aspectRatio] or [color], or
    [undefined], and destructuring [undefined] throws. *)
Definition render_ResultCard (result : GenerationResult) : Result Card :=
  let config := ResultCard.platformConfig (platform result) in
  let is_undefined :=
    match config with
    | Some _ => false
    | None => negb (inherited_property (platform result))
    end in
  if is_undefined then Throw TypeError
  else
    let icon := option_map ResultCard.icon config in
    let aspectRatio := option_map ResultCard.aspectRatio config in
    let color := option_map ResultCard.color config in
    Ok {| card_header_className :=
            lit "flex items-center space-x-3 p-4 border-b border-gray-700 "
            ++ template_value color;
          card_icon := icon;
          card_title := platform result;
          card_media :=
            if truthy_value (imageUrl result) then
              img (template_value (imageUrl result))
                  (platform result ++ lit " post visual")
            else
              placeholder (ImagePlaceholder aspectRatio);
          card_text := text result |}.

(** What [App] renders, lines 124-195, as far as it depends on the
    state.  A card is paired with its [key]; its content is the render
    of [ResultCard], which may throw. *)
Record AppView := {
  textarea_value : jsstring;
  textarea_disabled : bool;
  tone_selector : list ToneButton;
  generate_disabled : bool;
  generate_label : jsstring;
  error_banner : option jsstring;
  result_cards : option (list (jsstring * Result Card));
  empty_hint : bool
}.

Definition render_App (st : AppState) : AppView :=
  {| textarea_value := idea st;
     textarea_disabled := loading st;
     tone_selector := ToneSelector (tone st);
     generate_disabled := loading st;
     generate_label := if loading st then lit "Generating..." else lit "Generate Content";
     error_banner := if truthy_value (error st) then error st else None;
     result_cards :=
       match results st with
       | Some results =>
           Some (map (fun result : GenerationResult =>
                        (platform result, render_ResultCard result)) results)
       | None => None
       end;
     empty_hint :=
       negb (loading st)
       && negb (match results st with Some _ => true | None => false end)
       && negb (truthy_value (error st)) |}.

(** [onSelectTone={setTone}]: the state after a click on a tone button. *)
Definition select_tone (st : AppState) (button : ToneButton) : AppState :=
  {| idea := idea st; tone := button_onClick button; results := results st;
     loading := loading st; error := error st |}.

(* ===================================================================== *)
(** * More observations on logs *)
(* ===================================================================== *)

(** The label and the error of an event, if it is a [console.error]. *)
Definition console_entry X (e : Event X) : list (jsstring * JsError) :=
  match e with
  | console_error label err => [(label, err)]
  | _ => []
  end.

(** The lines written with [console.error], oldest first. *)
Definition console_errors (log : list Entry) : list (jsstring * JsError) :=
  flat_map (fun en => match en with Exchange e _ => console_entry e end) log.

(** The request of an event, if it is a call to the text service. *)
Definition content_call X (e : Event X) : list GenerateContentParameters :=
  match e with
  | generateContent _ params => [params]
  | _ => []
  end.

(** The requests sent to the text service, oldest first. *)
Definition content_calls (log : list Entry) : list GenerateContentParameters :=
  flat_map (fun en => match en with Exchange e _ => content_call e end) log.

(** A call of a state setter. *)
Inductive StateUpdate :=
| Set_error (v : option jsstring)
| Set_results (v : option (list GenerationResult))
| Set_loading (v : bool).

Definition state_update X (e : Event X) : list StateUpdate :=
  match e with
  | setError v => [Set_error v]
  | setResults v => [Set_results v]
  | setLoading v => [Set_loading v]
  | _ => []
  end.

(** The setter calls of a log, oldest first. *)
Definition state_updates (log : list Entry) : list StateUpdate :=
  flat_map (fun en => match en with Exchange e _ => state_update e end) log.

Definition apply_update (st : AppState) (u : StateUpdate) : AppState :=
  match u with
  | Set_error v => with_error st v
  | Set_results v => with_results st v
  | Set_loading v => with_loading st v
  end.

(** The states the component passes through: the state after each
    setter call, in order. *)
Fixpoint states_after (st : AppState) (us : list StateUpdate) : list AppState :=
  match us with
  | [] => []
  | u :: r => apply_update st u :: states_after (apply_update st u) r
  end.

(** The log entries of one call of [generateSocialPosts], the [n]-th
    call to the text service. *)
Definition generateSocialPosts_entries (w : World) (ai : GoogleGenAI)
    (idea : jsstring) (tone : Tone) (n : nat) : list Entry :=
  let reply := content_service w n ai (content_request idea tone) in
  let logged := fun err =>
    [Exchange (console_error (lit "Error generating social posts:") err) tt] in
  Exchange (generateContent ai (content_request idea tone)) reply ::
  match outcome reply with
  | Throw err => logged err
  | Ok response =>
      match response_text response with
      | None => logged TypeError
      | Some t =>
          Exchange (JSON_parse (trim t)) (parse_json w (trim t)) ::
          match parse_json w (trim t) with
          | ParseSyntaxError => logged SyntaxError
          | ParsedNotArray => logged TypeError
          | ParsedArray _ => []
          end
      end
  end.

(** The log entries of one call of [generateImage], the [n]-th call to
    the image service. *)
Definition generateImage_entries (w : World) (ai : GoogleGenAI)
    (prompt : jsstring) (ratio : AspectRatio) (n : nat) : list Entry :=
  let reply := image_service w n ai (generateImage_request prompt ratio) in
  let logged := fun err =>
    [Exchange (console_error (lit "Error generating image:") err) tt] in
  Exchange (generateImages ai (generateImage_request prompt ratio)) reply ::
  match outcome reply with
  | Throw err => logged err
  | Ok NoFirstImage => logged TypeError
  | Ok (FirstImage _) => []
  end.

(** The log entries of the fan-out over [posts]. *)
Fixpoint fan_out_entries (w : World) (ai : GoogleGenAI) (n : nat)
    (posts : list PostContent) : list Entry :=
  match posts with
  | [] => []
  | post :: r =>
      generateImage_entries w ai (image_prompt post)
        (getAspectRatioForPlatform (platform post)) n
      ++ fan_out_entries w ai (S n) r
  end.

(** The log entries of the [catch] block of [handleGenerate]. *)
Definition catch_entries (e : JsError) : list Entry :=
  [Exchange (setError (Some (or_else (message e) (lit "An unexpected error occurred.")))) tt;
   Exchange (setResults None) tt].

(** The whole log of [handleGenerate] on an idea that passes the guard. *)
Definition handleGenerate_entries (w : World) (ai : GoogleGenAI)
    (idea : jsstring) (tone : Tone) : list Entry :=
  [Exchange (setLoading true) tt; Exchange (setError None) tt; Exchange (setResults None) tt]
  ++ generateSocialPosts_entries w ai idea tone 0
  ++ match social_posts_outcome (content_service w 0 ai (content_request idea tone))
             (parse_json w) with
     | Throw e => catch_entries e
     | Ok posts =>
         Exchange (setResults (Some (initial_results posts))) tt
         :: fan_out_entries w ai 0 posts
         ++ match Promise_all (image_promises w ai 0 posts) with
            | Throw e => catch_entries e
            | Ok imageUrls =>
                [Exchange (setResults (Some (final_results posts imageUrls))) tt]
            end
     end
  ++ [Exchange (setLoading false) tt].

(** Two worlds that answer alike, except for the time at which each
    reply arrives. *)
Definition same_answers (w1 w2 : World) : Prop :=
  (forall n ai params,
      outcome (content_service w1 n ai params) = outcome (content_service w2 n ai params)) /\
  (forall n ai params,
      outcome (image_service w1 n ai params) = outcome (image_service w2 n ai params)) /\
  (forall t, parse_json w1 t = parse_json w2 t).

(** The platform is one of the three of [platformOrder]. *)
Definition known_platform (p : SocialPlatform) : bool :=
  jseq p LinkedIn || jseq p Twitter || jseq p Instagram.

(** The posts of one platform, in the order of the list. *)
Definition posts_of (p : SocialPlatform) (posts : list PostContent) : list PostContent :=
  filter (fun post => jseq (platform post) p) posts.

Module Scenario.

(** A post for a platform outside the schema's enumeration. *)
Definition facebook_post : PostContent :=
  {| platform := lit "Facebook";
     text := lit "Big news!";
     image_prompt := lit "A crowd cheering" |}.

(** The first image call has no image in its reply, the third one is
    rejected; the second delivers. *)
Definition first_and_third_fail (i : nat) : Promise GenerateImagesResponse :=
  match i with
  | 0 => {| settled_at := 7; outcome := Ok NoFirstImage |}
  | 2 => {| settled_at := 3; outcome := Throw (Error (lit "500 Internal Server Error")) |}
  | _ => Example.all_images i
  end.


(** The replies of [Example.second_image_rejected], arriving in the
    opposite order. *)
Definition second_image_rejected_late (i : nat) : Promise GenerateImagesResponse :=
  {| settled_at := 10 + i; outcome := outcome (Example.second_image_rejected i) |}.

Definition three_posts : list PostContent :=
  [Example.twitter_post; Example.instagram_post; Example.linkedin_post].

(** A state left by a failed request, with a new idea typed. *)
Definition after_failure : AppState :=
  {| idea := idea Example.fresh; tone := tone Example.fresh;
     results := None; loading := false;
     error := Some (lit "Failed to generate an image for the post.") |}.

End Scenario.

Arguments lit : simpl never.
Arguments trim : simpl never.
Arguments social_posts_prompt : simpl never.
Arguments styled_prompt : simpl never.
Arguments getAspectRatioForPlatform : simpl never.
Arguments calls : simpl never.
Arguments with_error : simpl never.
Arguments with_results : simpl never.
Arguments with_loading : simpl never.
Arguments image_exchanges : simpl never.

(* ===================================================================== *)
(** * Strings: trim *)
(* ===================================================================== *)

Section Trim.

Lemma trimStart_blank s : blank s -> trimStart s = [].
Proof.
  induction 1 as [|c r Hc _ IH]; simpl; [reflexivity|].
  now rewrite Hc.
Qed.

Lemma trimStart_not_blank s : ~ blank s ->
  exists c r, trimStart s = c :: r /\ is_white_space c = false.
Proof.
  induction s as [|c r IH]; intros Hnb.
  - exfalso. apply Hnb. constructor.
  - simpl. destruct (is_white_space c) eqn:Hc.
    + apply IH. intros Hr. apply Hnb. now constructor.
    + now exists c, r.
Qed.

Lemma blank_rev s : blank s -> blank (rev s).
Proof.
  unfold blank. rewrite !Forall_forall. intros H c Hin.
  apply H. now apply in_rev.
Qed.

Lemma trim_blank s : blank s -> trim s = [].
Proof.
  intros H. unfold trim, trimEnd.
  rewrite (trimStart_blank H). reflexivity.
Qed.

Lemma trim_not_blank s : ~ blank s -> trim s <> [].
Proof.
  intros Hnb.
  destruct (trimStart_not_blank Hnb) as (c & r & Hs & Hc).
  unfold trim, trimEnd. rewrite Hs.
  assert (Hnb' : ~ blank (rev (c :: r))).
  { intros Hb. apply blank_rev in Hb. rewrite rev_involutive in Hb.
    inversion Hb; congruence. }
  destruct (trimStart_not_blank Hnb') as (c' & r' & Hs' & _).
  rewrite Hs'. simpl. intros Heq.
  apply (f_equal (@List.length N)) in Heq.
  rewrite length_app in Heq. simpl in Heq. lia.
Qed.

Lemma blank_dec s : {blank s} + {~ blank s}.
Proof.
  apply Forall_dec. intros c. destruct (is_white_space c); [left|right]; congruence.
Qed.

(** The guard of [handleGenerate] fires exactly on blank ideas. *)
Lemma guard_blank s : truthy (trim s) = false <-> blank s.
Proof.
  split.
  - intros H. destruct (blank_dec s) as [Hb|Hnb]; [assumption|].
    apply trim_not_blank in Hnb. destruct (trim s); [congruence | discriminate].
  - intros H. now rewrite (trim_blank H).
Qed.

End Trim.

(* ===================================================================== *)
(** * Running programs *)
(* ===================================================================== *)

Section Run.
Variable w : World.

Lemma run_bind A B (p : Prog A) (f : A -> Prog B) : forall st log,
  run w (bind p f) st log =
  run w (f (value_of (run w p st log)))
      (state_of (run w p st log)) (log_of (run w p st log)).
Proof.
  induction p as [a | X e k IH]; intros st log; simpl.
  - reflexivity.
  - destruct (handle w log st e) as [x st']. apply IH.
Qed.

Lemma run_Ret A (a : A) st log : run w (Ret a) st log = (a, st, log).
Proof. reflexivity. Qed.

Lemma run_trigger X (e : Event X) st log :
  run w (trigger e) st log =
  (fst (handle w log st e), snd (handle w log st e),
   log ++ [Exchange e (fst (handle w log st e))]).
Proof.
  unfold trigger. simpl. now destruct (handle w log st e).
Qed.

Lemma run_trigger_bind X B (e : Event X) (f : X -> Prog B) st log :
  run w (bind (trigger e) f) st log =
  run w (f (fst (handle w log st e))) (snd (handle w log st e))
      (log ++ [Exchange e (fst (handle w log st e))]).
Proof.
  unfold trigger. simpl. now destruct (handle w log st e).
Qed.

Lemma calls_snoc kind (log : list Entry) en :
  calls kind (log ++ [en]) = calls kind log + (if kind en then 1 else 0).
Proof.
  unfold calls. rewrite filter_app, length_app. simpl.
  now destruct (kind en).
Qed.

Lemma image_exchanges_snoc (log : list Entry) X (e : Event X) reply :
  image_exchanges (log ++ [Exchange e reply]) = image_exchanges log ++ image_exchange e reply.
Proof.
  unfold image_exchanges. rewrite flat_map_app. simpl.
  now rewrite app_nil_r.
Qed.

End Run.

(* ===================================================================== *)
(** * The sort of line 64 *)
(* ===================================================================== *)

Section SortByPlatform.

Lemma sort_insert_perm A (cmp : A -> A -> Z) x l :
  Permutation (x :: l) (sort_insert cmp x l).
Proof.
  induction l as [|y r IH]; simpl; [apply Permutation_refl|].
  destruct (cmp x y >? 0)%Z.
  - eapply perm_trans; [apply perm_swap|]. now apply perm_skip.
  - apply Permutation_refl.
Qed.

Lemma Array_sort_perm A (cmp : A -> A -> Z) l :
  Permutation l (Array_sort cmp l).
Proof.
  induction l as [|x r IH]; simpl; [constructor|].
  eapply perm_trans; [apply perm_skip, IH | apply sort_insert_perm].
Qed.

Lemma by_platformOrder_gt a b :
  (by_platformOrder a b >? 0)%Z = true <-> rank_lt b a.
Proof.
  unfold by_platformOrder, rank_lt, platform_rank.
  rewrite Z.gtb_lt. lia.
Qed.

Lemma sort_insert_sorted x l :
  StronglySorted rank_le l -> StronglySorted rank_le (sort_insert by_platformOrder x l).
Proof.
  induction 1 as [|y r Hr IH Hy]; simpl.
  - repeat constructor.
  - destruct (by_platformOrder x y >? 0)%Z eqn:Hc.
    + apply by_platformOrder_gt in Hc.
      constructor; [assumption|].
      apply (Permutation_Forall (sort_insert_perm by_platformOrder x r)).
      constructor; [unfold rank_le, rank_lt in *; lia | assumption].
    + assert (Hxy : rank_le x y).
      { unfold rank_le. destruct (Z_lt_le_dec (platform_rank y) (platform_rank x)) as [Hlt|Hle];
          [|assumption].
        apply by_platformOrder_gt in Hlt. congruence. }
      constructor; [now constructor|].
      constructor; [assumption|].
      eapply Forall_impl; [|exact Hy].
      intros z Hz. unfold rank_le in *. lia.
Qed.

Lemma Array_sort_sorted l : StronglySorted rank_le (Array_sort by_platformOrder l).
Proof.
  induction l as [|x r IH]; simpl; [constructor | now apply sort_insert_sorted].
Qed.

(** Stability: posts of one platform keep their relative order. *)
Lemma sort_insert_stable k x l :
  filter (fun p => Z.eqb (platform_rank p) k) (sort_insert by_platformOrder x l) =
  filter (fun p => Z.eqb (platform_rank p) k) (x :: l).
Proof.
  induction l as [|y r IH]; [reflexivity|].
  cbn [sort_insert]. destruct (by_platformOrder x y >? 0)%Z eqn:Hc; [|reflexivity].
  apply by_platformOrder_gt in Hc. unfold rank_lt in Hc.
  cbn [filter] in *. rewrite IH.
  destruct (Z.eqb_spec (platform_rank x) k), (Z.eqb_spec (platform_rank y) k);
    try reflexivity; lia.
Qed.

Lemma Array_sort_stable k l :
  filter (fun p => Z.eqb (platform_rank p) k) (Array_sort by_platformOrder l) =
  filter (fun p => Z.eqb (platform_rank p) k) l.
Proof.
  induction l as [|x r IH]; [reflexivity|].
  cbn [Array_sort]. rewrite sort_insert_stable. cbn [filter]. now rewrite IH.
Qed.

(** A list sorted by rank that is a rearrangement of a list of strictly
    increasing ranks is that list. *)
Lemma sorted_perm_unique l1 : forall l2,
  StronglySorted rank_lt l1 -> StronglySorted rank_le l2 ->
  Permutation l1 l2 -> l2 = l1.
Proof.
  induction l1 as [|a l1 IH]; intros l2 H1 H2 HP.
  - now apply Permutation_nil in HP.
  - destruct l2 as [|h l2].
    { apply Permutation_sym, Permutation_nil in HP. discriminate. }
    inversion H1 as [|? ? H1' Ha]; subst.
    inversion H2 as [|? ? H2' Hh]; subst.
    assert (h = a) as ->.
    { assert (Hin : In h (a :: l1)) by
        (eapply Permutation_in; [apply Permutation_sym, HP | now left]).
      destruct Hin as [->|Hin]; [reflexivity|].
      assert (Hin' : In a (h :: l2)) by
        (eapply Permutation_in; [apply HP | now left]).
      destruct Hin' as [->|Hin']; [reflexivity|].
      rewrite Forall_forall in Ha, Hh.
      specialize (Ha _ Hin). specialize (Hh _ Hin').
      unfold rank_lt, rank_le in *. lia. }
    f_equal. apply IH; try assumption.
    now apply Permutation_cons_inv in HP.
Qed.

Lemma Array_sort_one_per_platform posts li tw ig :
  platform li = LinkedIn -> platform tw = Twitter -> platform ig = Instagram ->
  Permutation posts [li; tw; ig] ->
  Array_sort by_platformOrder posts = [li; tw; ig].
Proof.
  intros Hli Htw Hig HP.
  apply sorted_perm_unique.
  - repeat constructor; unfold rank_lt, platform_rank;
      rewrite ?Hli, ?Htw, ?Hig; vm_compute; reflexivity.
  - apply Array_sort_sorted.
  - eapply perm_trans; [apply Permutation_sym, HP | apply Array_sort_perm].
Qed.

End SortByPlatform.

(* ===================================================================== *)
(** * The two service functions, run *)
(* ===================================================================== *)

Section Services.
Variable w : World.
Variable ai : GoogleGenAI.

(** Case analysis on what the text service and [JSON.parse] answer. *)
Ltac content_cases :=
  cbn;
  match goal with
  | |- context [outcome (content_service ?v ?n ?a ?p)] =>
      destruct (outcome (content_service v n a p)) as [[[t|]]|e]; cbn;
      [destruct (parse_json v (trim t)); cbn | | ]
  end.

(** Case analysis on what the image service answers. *)
Ltac image_cases :=
  cbn;
  match goal with
  | |- context [outcome (image_service ?v ?n ?a ?p)] =>
      destruct (outcome (image_service v n a p)) as [[|bytes]|e]; cbn
  end.

Lemma generateSocialPosts_value idea tone st log :
  value_of (run w (generateSocialPosts ai idea tone) st log) =
  social_posts_promise
    (content_service w (calls is_generateContent log) ai (content_request idea tone))
    (parse_json w).
Proof.
  unfold generateSocialPosts, social_posts_promise, social_posts_outcome,
    async_await, try_catch, trigger, content_request.
  content_cases; reflexivity.
Qed.

Lemma generateSocialPosts_state idea tone st log :
  state_of (run w (generateSocialPosts ai idea tone) st log) = st.
Proof.
  unfold generateSocialPosts, async_await, try_catch, trigger.
  content_cases; reflexivity.
Qed.

Lemma generateSocialPosts_log idea tone st log :
  calls is_generateImages (log_of (run w (generateSocialPosts ai idea tone) st log)) =
  calls is_generateImages log /\
  image_exchanges (log_of (run w (generateSocialPosts ai idea tone) st log)) =
  image_exchanges log.
Proof.
  unfold generateSocialPosts, async_await, try_catch, trigger.
  content_cases; unfold log_of; cbn [snd];
    rewrite !calls_snoc, !image_exchanges_snoc; cbn; rewrite ?app_nil_r;
    split; lia || reflexivity.
Qed.

Lemma generateImage_value prompt ratio st log :
  value_of (run w (generateImage ai prompt ratio) st log) =
  image_promise
    (image_service w (calls is_generateImages log) ai (generateImage_request prompt ratio)).
Proof.
  unfold generateImage, image_promise, async_await, try_catch, trigger,
    generateImage_request.
  image_cases; reflexivity.
Qed.

Lemma generateImage_state prompt ratio st log :
  state_of (run w (generateImage ai prompt ratio) st log) = st.
Proof.
  unfold generateImage, async_await, try_catch, trigger.
  image_cases; reflexivity.
Qed.

Lemma generateImage_log prompt ratio st log :
  calls is_generateImages (log_of (run w (generateImage ai prompt ratio) st log)) =
  S (calls is_generateImages log) /\
  image_exchanges (log_of (run w (generateImage ai prompt ratio) st log)) =
  image_exchanges log ++
  [(generateImage_request prompt ratio,
    image_service w (calls is_generateImages log) ai (generateImage_request prompt ratio))].
Proof.
  unfold generateImage, async_await, try_catch, trigger, generateImage_request.
  image_cases; unfold log_of; cbn [snd];
    rewrite !calls_snoc, !image_exchanges_snoc; cbn; rewrite ?app_nil_r;
    split; lia || reflexivity.
Qed.

End Services.

(* ===================================================================== *)
(** * Promise.all *)
(* ===================================================================== *)

Section PromiseAll.
Variable A : Type.

Lemma first_rejection_Some (ps : list (Promise A)) t e :
  first_rejection ps = Some (t, e) ->
  exists p, In p ps /\ outcome p = Throw e.
Proof.
  revert t e. induction ps as [|p r IH]; intros t e; simpl; [discriminate|].
  destruct (outcome p) as [a|e0] eqn:Hp.
  - intros H. destruct (IH _ _ H) as (q & Hq & Ho). exists q. auto.
  - destruct (first_rejection r) as [[t' e']|].
    + destruct (settled_at p <=? t')%nat; intros [= <- <-].
      * exists p. auto.
      * destruct (IH _ _ eq_refl) as (q & Hq & Ho). exists q. auto.
    + intros [= <- <-]. exists p. auto.
Qed.

Lemma first_rejection_None (ps : list (Promise A)) :
  first_rejection ps = None ->
  forall p, In p ps -> exists a, outcome p = Ok a.
Proof.
  induction ps as [|p r IH]; simpl; [contradiction|].
  destruct (outcome p) as [a|e0] eqn:Hp.
  - intros H q [<-|Hq]; [now exists a | now apply IH].
  - destruct (first_rejection r) as [[t' e']|]; [|discriminate].
    destruct (settled_at p <=? t')%nat; discriminate.
Qed.

(** When each promise can only reject with [reason] and one of them
    does, [Promise.all] rejects with [reason], whichever rejects
    first. *)
Lemma Promise_all_rejected (ps : list (Promise A)) reason :
  (forall p e, In p ps -> outcome p = Throw e -> e = reason) ->
  (exists p e, In p ps /\ outcome p = Throw e) ->
  Promise_all ps = Throw reason.
Proof.
  intros Hall (p & e & Hin & Hp). unfold Promise_all.
  destruct (first_rejection ps) as [[t e']|] eqn:Hf.
  - destruct (first_rejection_Some _ Hf) as (q & Hq & Ho).
    now rewrite (Hall _ _ Hq Ho).
  - destruct (first_rejection_None _ Hf _ Hin) as (a & Ha). congruence.
Qed.

Lemma Promise_all_fulfilled (ps : list (Promise A)) :
  (forall p, In p ps -> exists a, outcome p = Ok a) ->
  Promise_all ps = Ok (fulfilled_values ps) /\
  map (@outcome A) ps = map Ok (fulfilled_values ps).
Proof.
  intros Hall. unfold Promise_all.
  destruct (first_rejection ps) as [[t e']|] eqn:Hf.
  - destruct (first_rejection_Some _ Hf) as (q & Hq & Ho).
    destruct (Hall _ Hq) as (a & Ha). congruence.
  - split; [reflexivity|]. clear Hf.
    induction ps as [|p r IH]; [reflexivity|]. simpl.
    destruct (Hall p (or_introl eq_refl)) as (a & Ha). rewrite Ha. simpl.
    f_equal. apply IH. intros q Hq. apply Hall. now right.
Qed.

End PromiseAll.

Section Arrays.

Lemma nth_error_mapi_from A B (f : A -> nat -> B) (l : list A) : forall n i,
  nth_error (mapi_from f n l) i = option_map (fun x => f x (n + i)) (nth_error l i).
Proof.
  induction l as [|x r IH]; intros n [|i]; simpl; try reflexivity.
  - now rewrite Nat.add_0_r.
  - rewrite IH. now rewrite Nat.add_succ_r.
Qed.

Lemma length_mapi_from A B (f : A -> nat -> B) (l : list A) : forall n,
  List.length (mapi_from f n l) = List.length l.
Proof. induction l as [|x r IH]; intros n; simpl; [reflexivity | now rewrite IH]. Qed.

Lemma In_mapi_from A B (f : A -> nat -> B) (l : list A) n y :
  In y (mapi_from f n l) ->
  exists i x, nth_error l i = Some x /\ y = f x (n + i).
Proof.
  intros Hin. apply In_nth_error in Hin. destruct Hin as (i & Hi).
  rewrite nth_error_mapi_from in Hi.
  destruct (nth_error l i) as [x|] eqn:Hx; [|discriminate].
  exists i, x. simpl in Hi. split; congruence.
Qed.

End Arrays.

(* ===================================================================== *)
(** * handleGenerate, stage by stage *)
(* ===================================================================== *)

Section Pipeline.
Variable w : World.
Variable ai : GoogleGenAI.

Lemma fan_out_run posts : forall st log,
  value_of (run w (fan_out ai posts) st log) =
    image_promises w ai (calls is_generateImages log) posts /\
  state_of (run w (fan_out ai posts) st log) = st /\
  calls is_generateImages (log_of (run w (fan_out ai posts) st log)) =
    calls is_generateImages log + List.length posts /\
  image_exchanges (log_of (run w (fan_out ai posts) st log)) =
    image_exchanges log ++ image_calls w ai (calls is_generateImages log) posts.
Proof.
  unfold fan_out, image_promises, image_calls.
  induction posts as [|post r IH]; intros st log.
  - cbn. rewrite app_nil_r. repeat split. lia.
  - cbn [map sequence mapi_from].
    rewrite run_bind, run_bind, run_Ret.
    set (r1 := run w (generateImage ai _ _) st log).
    destruct (IH (state_of r1) (log_of r1)) as (Hv & Hs & Hc & Hd).
    unfold value_of, state_of, log_of in *. cbn [fst snd].
    rewrite Hv, Hs, Hc, Hd.
    pose proof (generateImage_value w ai (image_prompt post)
                  (getAspectRatioForPlatform (platform post)) st log) as Gv.
    pose proof (generateImage_state w ai (image_prompt post)
                  (getAspectRatioForPlatform (platform post)) st log) as Gs.
    destruct (generateImage_log w ai (image_prompt post)
                (getAspectRatioForPlatform (platform post)) st log) as (Gc & Gd).
    unfold value_of, state_of, log_of in *. fold r1 in Gv, Gs, Gc, Gd.
    rewrite Gv, Gs, Gc, Gd. cbn [List.length map].
    rewrite <- app_assoc. repeat split. lia.
Qed.

Lemma generate_and_illustrate_run idea tone st log :
  let r := run w (generate_and_illustrate ai idea tone) st log in
  match social_posts_outcome
          (content_service w (calls is_generateContent log) ai (content_request idea tone))
          (parse_json w) with
  | Throw e => value_of r = Throw e /\ state_of r = st
  | Ok posts =>
      match Promise_all (image_promises w ai (calls is_generateImages log) posts) with
      | Throw e =>
          value_of r = Throw e /\
          state_of r = with_results st (Some (initial_results posts))
      | Ok imageUrls =>
          value_of r = Ok tt /\
          state_of r = with_results (with_results st (Some (initial_results posts)))
                         (Some (final_results posts imageUrls))
      end
  end.
Proof.
  cbv zeta.
  pose proof (generateSocialPosts_value w ai idea tone st log) as Gv.
  pose proof (generateSocialPosts_state w ai idea tone st log) as Gs.
  destruct (generateSocialPosts_log w ai idea tone st log) as (Gc & _).
  unfold generate_and_illustrate, await.
  rewrite !run_bind.
  destruct (run w (generateSocialPosts ai idea tone) st log) as [[v s] l].
  unfold value_of, state_of, log_of in *. cbn [fst snd run] in *. subst v s.
  cbn [outcome social_posts_promise].
  destruct (social_posts_outcome _ _) as [posts|e]; [|now split].
  rewrite run_bind, run_trigger. cbn [handle fst snd].
  rewrite run_bind.
  change (sequence _) with (fan_out ai posts).
  destruct (fan_out_run posts (with_results st (Some (initial_results posts)))
              (l ++ [Exchange (setResults (Some (initial_results posts))) tt]))
    as (Fv & Fs & _ & _).
  rewrite calls_snoc in Fv. cbn [is_generateImages] in Fv.
  rewrite Nat.add_0_r, Gc in Fv.
  destruct (run w (fan_out ai posts) _ _) as [[v s] l'].
  unfold value_of, state_of, log_of in *. cbn [fst snd] in *. subst v s.
  rewrite run_bind. unfold value_of, state_of, log_of. cbn [run fst snd].
  destruct (Promise_all _) as [imageUrls|e]; [|now split].
  rewrite run_bind, run_trigger.
  unfold value_of, state_of, log_of. cbn [handle fst snd run]. now split.
Qed.

Lemma generate_and_illustrate_log idea tone st log :
  image_exchanges (log_of (run w (generate_and_illustrate ai idea tone) st log)) =
  image_exchanges log ++
  match social_posts_outcome
          (content_service w (calls is_generateContent log) ai (content_request idea tone))
          (parse_json w) with
  | Throw _ => []
  | Ok posts => image_calls w ai (calls is_generateImages log) posts
  end.
Proof.
  pose proof (generateSocialPosts_value w ai idea tone st log) as Gv.
  destruct (generateSocialPosts_log w ai idea tone st log) as (Gc & Gx).
  unfold generate_and_illustrate, await.
  rewrite !run_bind.
  destruct (run w (generateSocialPosts ai idea tone) st log) as [[v s] l].
  unfold value_of, state_of, log_of in *. cbn [fst snd run] in *. subst v.
  cbn [outcome social_posts_promise].
  destruct (social_posts_outcome _ _) as [posts|e];
    [|cbn [run snd]; now rewrite app_nil_r].
  rewrite run_bind, run_trigger. cbn [handle fst snd].
  rewrite run_bind.
  change (sequence _) with (fan_out ai posts).
  destruct (fan_out_run posts (with_results s (Some (initial_results posts)))
              (l ++ [Exchange (setResults (Some (initial_results posts))) tt]))
    as (_ & _ & _ & Fx).
  rewrite calls_snoc, image_exchanges_snoc in Fx. cbn [is_generateImages image_exchange] in Fx.
  rewrite Nat.add_0_r, app_nil_r, Gc, Gx in Fx.
  destruct (run w (fan_out ai posts) _ _) as [[v s'] l'].
  unfold value_of, state_of, log_of in *. cbn [fst snd] in *.
  rewrite run_bind. unfold value_of, state_of, log_of. cbn [run fst snd].
  destruct (Promise_all _) as [imageUrls|e]; [|exact Fx].
  rewrite run_bind, run_trigger.
  unfold value_of, state_of, log_of. cbn [handle fst snd run].
  rewrite image_exchanges_snoc. cbn [image_exchange]. now rewrite app_nil_r.
Qed.

(** The image calls of a request: one per post returned by the text
    stage, in the order of the posts, whether or not some fail. *)
Lemma handleGenerate_log idea tone st :
  truthy (trim idea) = true ->
  image_exchanges (log_of (run w (handleGenerate ai idea tone) st [])) =
  match social_posts_outcome (content_service w 0 ai (content_request idea tone))
          (parse_json w) with
  | Throw _ => []
  | Ok posts => image_calls w ai 0 posts
  end.
Proof.
  intros Hidea. unfold handleGenerate. rewrite Hidea. cbn [negb].
  rewrite !run_trigger_bind. cbn [handle fst snd app].
  unfold try_finally, try_catch. rewrite !run_bind.
  set (log0 := [_; _; _]).
  pose proof (generate_and_illustrate_log idea tone (started st) log0) as G.
  change (calls is_generateContent log0) with 0 in G.
  change (calls is_generateImages log0) with 0 in G.
  change (image_exchanges log0) with
    (@nil (GenerateImagesParameters * Promise GenerateImagesResponse)) in G.
  cbn [app] in G. rewrite <- G. clear G.
  fold (started st).
  destruct (run w (generate_and_illustrate ai idea tone) (started st) log0) as [[[u|e] s] l];
    unfold value_of, state_of, log_of; cbn [fst snd run].
  - rewrite run_trigger. cbn [snd].
    rewrite image_exchanges_snoc. cbn [image_exchange]. now rewrite app_nil_r.
  - rewrite !run_trigger_bind. cbn [handle fst snd run].
    rewrite run_trigger. cbn [snd].
    rewrite !image_exchanges_snoc. cbn [image_exchange]. now rewrite !app_nil_r.
Qed.

Lemma handleGenerate_run idea tone st :
  truthy (trim idea) = true ->
  state_of (run w (handleGenerate ai idea tone) st []) =
  match social_posts_outcome (content_service w 0 ai (content_request idea tone))
          (parse_json w) with
  | Throw e => failed (started st) e
  | Ok posts =>
      match Promise_all (image_promises w ai 0 posts) with
      | Throw e => failed (with_results (started st) (Some (initial_results posts))) e
      | Ok imageUrls =>
          with_loading
            (with_results (with_results (started st) (Some (initial_results posts)))
               (Some (final_results posts imageUrls)))
            false
      end
  end.
Proof.
  intros Hidea. unfold handleGenerate. rewrite Hidea. cbn [negb].
  rewrite !run_trigger_bind. cbn [handle fst snd app].
  fold (started st).
  unfold try_finally, try_catch. rewrite !run_bind.
  set (log0 := [_; _; _]).
  pose proof (generate_and_illustrate_run idea tone (started st) log0) as G.
  cbv zeta in G.
  change (calls is_generateContent log0) with 0 in G.
  change (calls is_generateImages log0) with 0 in G.
  destruct (run w (generate_and_illustrate ai idea tone) (started st) log0) as [[v s] l].
  unfold value_of, state_of, log_of in *. cbn [fst snd] in *.
  destruct (social_posts_outcome _ _) as [posts|e].
  - destruct (Promise_all _) as [imageUrls|e]; destruct G as [-> ->].
    + cbn [run fst snd]. rewrite run_trigger. reflexivity.
    + rewrite !run_trigger_bind. cbn [handle fst snd run].
      rewrite run_trigger. reflexivity.
  - destruct G as [-> ->].
    rewrite !run_trigger_bind. cbn [handle fst snd run].
    rewrite run_trigger. reflexivity.
Qed.

End Pipeline.

(* ===================================================================== *)
(** * The Content Generator: generateSocialPosts *)
(* ===================================================================== *)

(** C1, as stated, fails: for the non-empty idea "Launch a new
    productivity app" and tone Witty, when the service answers with an
    array holding one Twitter post, [generateSocialPosts] returns that one
    post; the result is not one entry per platform. *)
Lemma generateSocialPosts_single_post :
  truthy (idea Example.fresh) = true /\
  outcome (value_of (run (Example.scripted [Example.twitter_post] Example.all_images)
                         (generateSocialPosts Example.ai (idea Example.fresh) Witty)
                         Example.fresh [])) = Ok [Example.twitter_post] /\
  ~ one_per_platform_in_order [Example.twitter_post].
Proof.
  split; [reflexivity|]. split; [vm_compute; reflexivity|].
  unfold one_per_platform_in_order. simpl. discriminate.
Qed.

(** C1, amended: for every idea and tone, when the service's text parses
    to an array [posts], [generateSocialPosts] returns the same entries
    (nothing added, dropped or merged) sorted by platform order, entries
    of one platform keeping their order; so when [posts] holds exactly
    one entry per platform, in any order, the result is exactly these
    three entries in the order LinkedIn, Twitter, Instagram. *)
Theorem generateSocialPosts_sorts_response
    (w : World) (ai : GoogleGenAI) (idea : jsstring) (tone : Tone)
    (st : AppState) (log : list Entry) (t : jsstring) (posts : list PostContent) :
  outcome (content_service w (calls is_generateContent log) ai (content_request idea tone))
    = Ok {| response_text := Some t |} ->
  parse_json w (trim t) = ParsedArray posts ->
  exists out,
    outcome (value_of (run w (generateSocialPosts ai idea tone) st log)) = Ok out /\
    Permutation posts out /\
    StronglySorted rank_le out /\
    (forall k, filter (fun p => Z.eqb (platform_rank p) k) out =
               filter (fun p => Z.eqb (platform_rank p) k) posts) /\
    (forall li tw ig,
        platform li = LinkedIn -> platform tw = Twitter -> platform ig = Instagram ->
        Permutation posts [li; tw; ig] ->
        out = [li; tw; ig] /\ one_per_platform_in_order out).
Proof.
  intros Hreply Hparse.
  exists (Array_sort by_platformOrder posts).
  rewrite generateSocialPosts_value. cbn [outcome social_posts_promise].
  unfold social_posts_outcome. rewrite Hreply. cbn [response_text]. rewrite Hparse.
  split; [reflexivity|].
  split; [apply Array_sort_perm|].
  split; [apply Array_sort_sorted|].
  split; [intros k; apply Array_sort_stable|].
  intros li tw ig Hli Htw Hig HP.
  rewrite (Array_sort_one_per_platform Hli Htw Hig HP).
  split; [reflexivity|].
  unfold one_per_platform_in_order. simpl. now rewrite Hli, Htw, Hig.
Qed.

Lemma generateSocialPosts_sorts_response_witness :
  exists out,
    outcome (value_of
               (run (Example.scripted
                       [Example.instagram_post; Example.linkedin_post; Example.twitter_post]
                       Example.all_images)
                    (generateSocialPosts Example.ai (idea Example.fresh) Witty)
                    Example.fresh [])) = Ok out /\
    Permutation [Example.instagram_post; Example.linkedin_post; Example.twitter_post] out /\
    StronglySorted rank_le out /\
    (forall k, filter (fun p => Z.eqb (platform_rank p) k) out =
               filter (fun p => Z.eqb (platform_rank p) k)
                 [Example.instagram_post; Example.linkedin_post; Example.twitter_post]) /\
    (forall li tw ig,
        platform li = LinkedIn -> platform tw = Twitter -> platform ig = Instagram ->
        Permutation [Example.instagram_post; Example.linkedin_post; Example.twitter_post]
                    [li; tw; ig] ->
        out = [li; tw; ig] /\ one_per_platform_in_order out).
Proof.
  apply (@generateSocialPosts_sorts_response
           (Example.scripted
              [Example.instagram_post; Example.linkedin_post; Example.twitter_post]
              Example.all_images)
           Example.ai (idea Example.fresh) Witty Example.fresh []
           (lit " " ++ Example.posts_json
                         [Example.instagram_post; Example.linkedin_post; Example.twitter_post]
                ++ nl)).
  - reflexivity.
  - vm_compute. reflexivity.
Defined.

(** C7: whatever goes wrong inside [generateSocialPosts] (the service
    rejects the call, the response has no text, [JSON.parse] throws, the
    parsed value is no array), the function throws the one generic
    failure; otherwise it returns the whole parsed array, sorted.  The
    component state is not touched. *)
Theorem generateSocialPosts_failure_policy
    (w : World) (ai : GoogleGenAI) (idea : jsstring) (tone : Tone)
    (st : AppState) (log : list Entry) :
  let r := run w (generateSocialPosts ai idea tone) st log in
  state_of r = st /\
  match outcome (content_service w (calls is_generateContent log) ai
                   (content_request idea tone)) with
  | Throw _ => outcome (value_of r) = Throw content_failure
  | Ok response =>
      match response_text response with
      | None => outcome (value_of r) = Throw content_failure
      | Some t =>
          match parse_json w (trim t) with
          | ParseSyntaxError => outcome (value_of r) = Throw content_failure
          | ParsedNotArray => outcome (value_of r) = Throw content_failure
          | ParsedArray posts =>
              outcome (value_of r) = Ok (Array_sort by_platformOrder posts) /\
              Permutation posts (Array_sort by_platformOrder posts)
          end
      end
  end /\
  message content_failure =
    lit "Failed to generate content. Please check your input and try again.".
Proof.
  cbv zeta. split; [apply generateSocialPosts_state|].
  split; [|reflexivity].
  rewrite generateSocialPosts_value. cbn [outcome social_posts_promise].
  unfold social_posts_outcome.
  destruct (outcome (content_service _ _ _ _)) as [response|e]; [|reflexivity].
  destruct (response_text response) as [t|]; [|reflexivity].
  destruct (parse_json w (trim t)); try reflexivity.
  split; [reflexivity | apply Array_sort_perm].
Qed.

(** C8: the API key is read when the module is initialised; without it
    (unset, or set to the empty string) initialisation throws, and the
    module's exports, the two service functions, exist only when a
    non-empty key was there. *)
Theorem module_initialization_requires_API_KEY :
  module_initialization None =
    Throw (Error (lit "API_KEY environment variable is not set")) /\
  import_geminiService None =
    Throw (Error (lit "API_KEY environment variable is not set")) /\
  import_geminiService (Some empty_string) =
    Throw (Error (lit "API_KEY environment variable is not set")) /\
  forall API_KEY,
    (exists svc, import_geminiService API_KEY = Ok svc) <->
    (exists key, API_KEY = Some key /\ key <> empty_string /\
                 module_initialization API_KEY = Ok {| apiKey := key |}).
Proof.
  repeat (split; [reflexivity|]).
  intros API_KEY. unfold import_geminiService, module_initialization.
  destruct API_KEY as [[|c key]|]; cbn.
  - split; [intros [svc H]; discriminate | intros (key & [= <-] & Hk & _); now destruct Hk].
  - split; [intros _ | intros _; eexists; reflexivity].
    exists (c :: key). repeat split. discriminate.
  - split; [intros [svc H]; discriminate | intros (key & Hk & _); discriminate].
Qed.

(* ===================================================================== *)
(** * The Visual Generator: aspect ratios and generateImage *)
(* ===================================================================== *)

(** C5: the aspect ratio of a platform is fixed: LinkedIn 4:3, Twitter
    16:9, Instagram 1:1; [getAspectRatioForPlatform] takes the platform
    alone (any other string gets 1:1), and the table of [ResultCard]
    agrees with it on the three platforms. *)
Theorem getAspectRatioForPlatform_fixed :
  AspectRatio_value (getAspectRatioForPlatform LinkedIn) = lit "4:3" /\
  AspectRatio_value (getAspectRatioForPlatform Twitter) = lit "16:9" /\
  AspectRatio_value (getAspectRatioForPlatform Instagram) = lit "1:1" /\
  Forall (fun p => option_map ResultCard.aspectRatio (ResultCard.platformConfig p)
                   = Some (getAspectRatioForPlatform p)) platformOrder /\
  forall p : SocialPlatform,
    getAspectRatioForPlatform p =
    if jseq p LinkedIn then Ratio_4_3
    else if jseq p Twitter then Ratio_16_9
    else Ratio_1_1.
Proof.
  repeat (split; [vm_compute; reflexivity|]).
  split; [repeat constructor|].
  intros p. unfold getAspectRatioForPlatform, LinkedIn, Twitter.
  destruct (jseq p (lit "LinkedIn")); [reflexivity|].
  destruct (jseq p (lit "Twitter")); [reflexivity|].
  now destruct (jseq p (lit "Instagram")).
Qed.

(** C6: whatever the aspect ratio, the client, the service's answers and
    the component state (the selected tone included), [generateImage]
    hands the image service exactly one prompt: the fixed style
    qualifier followed by the caller's prompt. *)
Theorem generateImage_dispatches_styled_prompt
    (p : jsstring) (ai1 ai2 : GoogleGenAI) (ratio1 ratio2 : AspectRatio)
    (w1 w2 : World) (st1 st2 : AppState) :
  dispatched_image_prompts (log_of (run w1 (generateImage ai1 p ratio1) st1 [])) =
    [lit "High-quality, professional photograph style: " ++ p] /\
  dispatched_image_prompts (log_of (run w2 (generateImage ai2 p ratio2) st2 [])) =
  dispatched_image_prompts (log_of (run w1 (generateImage ai1 p ratio1) st1 [])).
Proof.
  destruct (generateImage_log w1 ai1 p ratio1 st1 []) as (_ & H1).
  destruct (generateImage_log w2 ai2 p ratio2 st2 []) as (_ & H2).
  unfold dispatched_image_prompts. rewrite H1, H2. split; reflexivity.
Qed.

(* ===================================================================== *)
(** * The Input Collector: handleGenerate *)
(* ===================================================================== *)

Section HandleGenerate.
Variable w : World.
Variable ai : GoogleGenAI.

Lemma submit_state st :
  fst (submit w ai st) = state_of (run w (handleGenerate ai (idea st) (tone st)) st []).
Proof.
  unfold submit, state_of.
  now destruct (run w (handleGenerate ai (idea st) (tone st)) st []) as [[v s] l].
Qed.

Lemma submit_log st :
  snd (submit w ai st) = log_of (run w (handleGenerate ai (idea st) (tone st)) st []).
Proof.
  unfold submit, log_of.
  now destruct (run w (handleGenerate ai (idea st) (tone st)) st []) as [[v s] l].
Qed.

(** On a blank idea [handleGenerate] is the single [setError]. *)
Lemma handleGenerate_blank idea tone :
  blank idea -> handleGenerate ai idea tone = trigger (setError (Some validation_message)).
Proof.
  intros Hb. apply guard_blank in Hb. unfold handleGenerate. now rewrite Hb.
Qed.

(** What [generateSocialPosts] returns from a log without text calls. *)
Lemma generateSocialPosts_returns idea tone st :
  outcome (value_of (run w (generateSocialPosts ai idea tone) st [])) =
  social_posts_outcome (content_service w 0 ai (content_request idea tone)) (parse_json w).
Proof. now rewrite generateSocialPosts_value. Qed.

(** [generateSocialPosts] throws the generic content failure only. *)
Lemma generateSocialPosts_failure_reason idea tone st log e :
  outcome (value_of (run w (generateSocialPosts ai idea tone) st log)) = Throw e ->
  e = content_failure.
Proof.
  rewrite generateSocialPosts_value. cbn [outcome social_posts_promise].
  unfold social_posts_outcome.
  destruct (outcome (content_service _ _ _ _)) as [response|e']; [|congruence].
  destruct (response_text response) as [t|]; [|congruence].
  destruct (parse_json w (trim t)); congruence.
Qed.

(** A promise of [generateImage] rejects with the generic image
    failure only. *)
Lemma image_promises_reason n posts p e :
  In p (image_promises w ai n posts) -> outcome p = Throw e -> e = image_failure.
Proof.
  intros Hin Hp. apply In_mapi_from in Hin. destruct Hin as (i & post & _ & ->).
  unfold image_promise in Hp. cbn [outcome] in Hp.
  destruct (outcome (image_service w (n + i) ai (image_request post))) as [[|bytes]|e'];
    congruence.
Qed.

Lemma image_promises_failed posts i post :
  nth_error posts i = Some post ->
  image_call_failed (image_service w i ai (image_request post)) = true ->
  Promise_all (image_promises w ai 0 posts) = Throw image_failure.
Proof.
  intros Hi Hf. apply Promise_all_rejected.
  - intros p e. apply image_promises_reason.
  - exists (image_promise (image_service w i ai (image_request post))), image_failure.
    split.
    + apply (nth_error_In _ i). unfold image_promises.
      rewrite nth_error_mapi_from, Hi. reflexivity.
    + unfold image_call_failed in Hf. unfold image_promise. cbn [outcome].
      destruct (outcome (image_service w i ai (image_request post))) as [[|bytes]|e'];
        reflexivity || discriminate Hf.
Qed.

Lemma image_promises_delivered posts :
  (forall i post, nth_error posts i = Some post ->
                  image_call_failed (image_service w i ai (image_request post)) = false) ->
  exists imageUrls,
    Promise_all (image_promises w ai 0 posts) = Ok imageUrls /\
    forall i post, nth_error posts i = Some post ->
      exists bytes,
        outcome (image_service w i ai (image_request post)) = Ok (FirstImage bytes) /\
        nth_error imageUrls i =
          Some (lit "data:image/jpeg;base64," ++ template_value bytes).
Proof.
  intros Hall.
  destruct (@Promise_all_fulfilled _ (image_promises w ai 0 posts)) as (HP & Hmap).
  { intros p Hin. apply In_mapi_from in Hin. destruct Hin as (i & post & Hi & ->).
    specialize (Hall _ _ Hi). unfold image_call_failed in Hall.
    unfold image_promise. cbn [outcome Nat.add].
    destruct (outcome (image_service w i ai (image_request post))) as [[|bytes]|e'];
      try discriminate. eexists. reflexivity. }
  eexists. split; [exact HP|].
  intros i post Hi. specialize (Hall _ _ Hi). unfold image_call_failed in Hall.
  apply (f_equal (fun l => nth_error l i)) in Hmap.
  rewrite !nth_error_map in Hmap. unfold image_promises in Hmap.
  rewrite nth_error_mapi_from, Hi in Hmap. cbn [option_map Nat.add] in Hmap.
  unfold image_promise in Hmap. cbn [outcome] in Hmap.
  destruct (outcome (image_service w i ai (image_request post))) as [[|bytes]|e'];
    try discriminate.
  exists bytes. split; [reflexivity|].
  destruct (nth_error (fulfilled_values _) i) as [url|]; [|discriminate].
  cbn [option_map] in Hmap. now injection Hmap as <-.
Qed.

Lemma final_results_nth posts imageUrls i post :
  nth_error posts i = Some post ->
  nth_error (final_results posts imageUrls) i =
    Some {| content := post; imageUrl := nth_error imageUrls i |}.
Proof.
  intros Hi. unfold final_results, mapi, initial_results.
  rewrite nth_error_mapi_from, nth_error_map, Hi. reflexivity.
Qed.

Lemma final_results_length posts imageUrls :
  List.length (final_results posts imageUrls) = List.length posts.
Proof.
  unfold final_results, mapi, initial_results.
  now rewrite length_mapi_from, length_map.
Qed.

End HandleGenerate.

(** C3: submitting an idea that is empty or white space only makes no
    call to either service: the whole run is the one [setError], and the
    error shown is the validation message. *)
Theorem blank_idea_makes_no_network_call (w : World) (ai : GoogleGenAI) (st : AppState) :
  blank (idea st) ->
  snd (submit w ai st) = [Exchange (setError (Some validation_message)) tt] /\
  filter is_network_call (snd (submit w ai st)) = [] /\
  error (fst (submit w ai st)) = Some (lit "Please enter an idea.").
Proof.
  intros Hb. unfold submit.
  rewrite (handleGenerate_blank ai (tone st) Hb). cbn.
  repeat split.
Qed.

Lemma blank_idea_makes_no_network_call_witness :
  snd (submit (Example.scripted [Example.twitter_post] Example.all_images)
              Example.ai Example.showing_results)
    = [Exchange (setError (Some validation_message)) tt] /\
  filter is_network_call
    (snd (submit (Example.scripted [Example.twitter_post] Example.all_images)
                 Example.ai Example.showing_results)) = [] /\
  error (fst (submit (Example.scripted [Example.twitter_post] Example.all_images)
                     Example.ai Example.showing_results))
    = Some (lit "Please enter an idea.").
Proof.
  apply (@blank_idea_makes_no_network_call
           (Example.scripted [Example.twitter_post] Example.all_images)
           Example.ai Example.showing_results).
  repeat constructor.
Defined.

(** C10: on a blank idea [handleGenerate] changes the error field and
    nothing else: the results on display and the loading flag stay as
    they were. *)
Theorem blank_idea_changes_only_error (w : World) (ai : GoogleGenAI) (st : AppState) :
  blank (idea st) ->
  fst (submit w ai st) =
    {| idea := idea st; tone := tone st; results := results st;
       loading := loading st; error := Some validation_message |} /\
  results (fst (submit w ai st)) = results st /\
  loading (fst (submit w ai st)) = loading st.
Proof.
  intros Hb. unfold submit.
  rewrite (handleGenerate_blank ai (tone st) Hb). cbn.
  repeat split.
Qed.

Lemma blank_idea_changes_only_error_witness :
  fst (submit Example.text_service_down Example.ai Example.showing_results) =
    {| idea := idea Example.showing_results; tone := tone Example.showing_results;
       results := results Example.showing_results;
       loading := loading Example.showing_results;
       error := Some validation_message |} /\
  results (fst (submit Example.text_service_down Example.ai Example.showing_results))
    = results Example.showing_results /\
  loading (fst (submit Example.text_service_down Example.ai Example.showing_results))
    = loading Example.showing_results.
Proof.
  apply (@blank_idea_changes_only_error
           Example.text_service_down Example.ai Example.showing_results).
  repeat constructor.
Defined.

(** C2: when [generateSocialPosts] returned [posts] and the image call of
    any one of them fails, the request has failed as a whole: the final
    state holds no result set, not even one with some of the images, and
    shows the single image-generation failure. *)
Theorem one_image_failure_fails_the_request
    (w : World) (ai : GoogleGenAI) (st : AppState)
    (posts : list PostContent) (i : nat) (post : PostContent) :
  truthy (trim (idea st)) = true ->
  outcome (value_of (run w (generateSocialPosts ai (idea st) (tone st)) st [])) = Ok posts ->
  nth_error posts i = Some post ->
  image_call_failed (image_service w i ai (image_request post)) = true ->
  results (fst (submit w ai st)) = None /\
  error (fst (submit w ai st)) = Some (lit "Failed to generate an image for the post.") /\
  loading (fst (submit w ai st)) = false.
Proof.
  intros Hidea Hposts Hi Hfail.
  rewrite submit_state, (@handleGenerate_run w ai (idea st) (tone st) st Hidea).
  rewrite generateSocialPosts_returns in Hposts. rewrite Hposts.
  rewrite (image_promises_failed w ai posts i Hi Hfail).
  repeat split.
Qed.

Lemma one_image_failure_fails_the_request_witness :
  let w := Example.scripted
             [Example.twitter_post; Example.instagram_post; Example.linkedin_post]
             Example.second_image_rejected in
  results (fst (submit w Example.ai Example.fresh)) = None /\
  error (fst (submit w Example.ai Example.fresh))
    = Some (lit "Failed to generate an image for the post.") /\
  loading (fst (submit w Example.ai Example.fresh)) = false.
Proof.
  apply (@one_image_failure_fails_the_request
           (Example.scripted
              [Example.twitter_post; Example.instagram_post; Example.linkedin_post]
              Example.second_image_rejected)
           Example.ai Example.fresh
           [Example.linkedin_post; Example.twitter_post; Example.instagram_post]
           1 Example.twitter_post).
  - reflexivity.
  - vm_compute. reflexivity.
  - reflexivity.
  - reflexivity.
Defined.

(** C4: when the text stage fails ([generateSocialPosts] throws) or the
    image stage fails (the image call of some post fails), the request
    ends with the results cleared and an error message set: the generic
    message of the stage that failed.  What was computed before the
    failure is not kept. *)
Theorem failure_discards_partial_results (w : World) (ai : GoogleGenAI) (st : AppState) :
  truthy (trim (idea st)) = true ->
  (exists e,
      outcome (value_of (run w (generateSocialPosts ai (idea st) (tone st)) st [])) = Throw e)
  \/ (exists posts i post,
        outcome (value_of (run w (generateSocialPosts ai (idea st) (tone st)) st []))
          = Ok posts /\
        nth_error posts i = Some post /\
        image_call_failed (image_service w i ai (image_request post)) = true) ->
  results (fst (submit w ai st)) = None /\
  loading (fst (submit w ai st)) = false /\
  (error (fst (submit w ai st)) =
     Some (lit "Failed to generate content. Please check your input and try again.")
   \/ error (fst (submit w ai st)) = Some (lit "Failed to generate an image for the post.")).
Proof.
  intros Hidea Hfail.
  rewrite submit_state, (@handleGenerate_run w ai (idea st) (tone st) st Hidea).
  destruct Hfail as [(e & He) | (posts & i & post & Hposts & Hi & Hf)].
  - pose proof (generateSocialPosts_failure_reason w ai (idea st) (tone st) st [] He) as ->.
    rewrite generateSocialPosts_returns in He. rewrite He.
    repeat split. now left.
  - rewrite generateSocialPosts_returns in Hposts. rewrite Hposts.
    rewrite (image_promises_failed w ai posts i Hi Hf).
    repeat split. now right.
Qed.

Lemma failure_discards_partial_results_witness :
  results (fst (submit Example.text_service_down Example.ai Example.fresh)) = None /\
  loading (fst (submit Example.text_service_down Example.ai Example.fresh)) = false /\
  (error (fst (submit Example.text_service_down Example.ai Example.fresh)) =
     Some (lit "Failed to generate content. Please check your input and try again.")
   \/ error (fst (submit Example.text_service_down Example.ai Example.fresh))
      = Some (lit "Failed to generate an image for the post.")).
Proof.
  apply (@failure_discards_partial_results
           Example.text_service_down Example.ai Example.fresh).
  - reflexivity.
  - left. exists content_failure. vm_compute. reflexivity.
Defined.

(** C9: when nothing fails, the final result set is aligned with the
    posts [generateSocialPosts] returned: entry [i] is post [i] with the
    image that the [i]-th image call delivered, and that call asked for
    post [i]'s image prompt (styled) at the aspect ratio of post [i]'s
    platform. *)
Theorem final_results_follow_the_posts
    (w : World) (ai : GoogleGenAI) (st : AppState) (posts : list PostContent) :
  truthy (trim (idea st)) = true ->
  outcome (value_of (run w (generateSocialPosts ai (idea st) (tone st)) st [])) = Ok posts ->
  (forall i post, nth_error posts i = Some post ->
                  image_call_failed (image_service w i ai (image_request post)) = false) ->
  exists finalResults,
    results (fst (submit w ai st)) = Some finalResults /\
    error (fst (submit w ai st)) = None /\
    loading (fst (submit w ai st)) = false /\
    List.length finalResults = List.length posts /\
    forall i post, nth_error posts i = Some post ->
      prompt (image_request post) = styled_prompt (image_prompt post) /\
      aspectRatio (image_request post) = getAspectRatioForPlatform (platform post) /\
      nth_error (image_exchanges (snd (submit w ai st))) i =
        Some (image_request post, image_service w i ai (image_request post)) /\
      exists bytes,
        outcome (image_service w i ai (image_request post)) = Ok (FirstImage bytes) /\
        nth_error finalResults i =
          Some {| content := post;
                  imageUrl := Some (lit "data:image/jpeg;base64," ++ template_value bytes) |}.
Proof.
  intros Hidea Hposts Hall.
  rewrite submit_log, (@handleGenerate_log w ai (idea st) (tone st) st Hidea).
  rewrite submit_state, (@handleGenerate_run w ai (idea st) (tone st) st Hidea).
  rewrite generateSocialPosts_returns in Hposts. rewrite Hposts.
  destruct (image_promises_delivered w ai posts Hall) as (imageUrls & -> & Hurls).
  exists (final_results posts imageUrls).
  repeat (split; [reflexivity|]).
  split; [apply final_results_length|].
  intros i post Hi. repeat (split; [reflexivity|]).
  split; [unfold image_calls; now rewrite nth_error_mapi_from, Hi|].
  destruct (Hurls _ _ Hi) as (bytes & Hb & Hu).
  exists bytes. split; [exact Hb|].
  now rewrite (final_results_nth posts imageUrls i Hi), Hu.
Qed.

Lemma final_results_follow_the_posts_witness :
  let w := Example.scripted
             [Example.twitter_post; Example.instagram_post; Example.linkedin_post]
             Example.all_images in
  let posts := [Example.linkedin_post; Example.twitter_post; Example.instagram_post] in
  exists finalResults,
    results (fst (submit w Example.ai Example.fresh)) = Some finalResults /\
    error (fst (submit w Example.ai Example.fresh)) = None /\
    loading (fst (submit w Example.ai Example.fresh)) = false /\
    List.length finalResults = List.length posts /\
    forall i post, nth_error posts i = Some post ->
      prompt (image_request post) = styled_prompt (image_prompt post) /\
      aspectRatio (image_request post) = getAspectRatioForPlatform (platform post) /\
      nth_error (image_exchanges (snd (submit w Example.ai Example.fresh))) i =
        Some (image_request post, image_service w i Example.ai (image_request post)) /\
      exists bytes,
        outcome (image_service w i Example.ai (image_request post)) = Ok (FirstImage bytes) /\
        nth_error finalResults i =
          Some {| content := post;
                  imageUrl := Some (lit "data:image/jpeg;base64," ++ template_value bytes) |}.
Proof.
  apply (@final_results_follow_the_posts
           (Example.scripted
              [Example.twitter_post; Example.instagram_post; Example.linkedin_post]
              Example.all_images)
           Example.ai Example.fresh
           [Example.linkedin_post; Example.twitter_post; Example.instagram_post]).
  - reflexivity.
  - vm_compute. reflexivity.
  - intros i post _. reflexivity.
Defined.

(* ===================================================================== *)
(** * The whole log of a request *)
(* ===================================================================== *)

Section FullLog.
Variable w : World.
Variable ai : GoogleGenAI.

(** Two concatenations of the same pieces. *)
Ltac join_lists :=
  repeat (progress (rewrite <- ?app_assoc, ?app_nil_r; cbn [app])); reflexivity.

Lemma generateSocialPosts_full_log idea tone st log :
  log_of (run w (generateSocialPosts ai idea tone) st log) =
  log ++ generateSocialPosts_entries w ai idea tone (calls is_generateContent log).
Proof.
  unfold generateSocialPosts, generateSocialPosts_entries, async_await, try_catch,
    trigger, content_request.
  cbn.
  destruct (outcome (content_service w _ ai _)) as [[[t|]]|e]; cbn;
    [destruct (parse_json w (trim t)); cbn | | ];
    unfold log_of; cbn [snd]; now rewrite <- ?app_assoc.
Qed.

Lemma generateImage_full_log prompt ratio st log :
  log_of (run w (generateImage ai prompt ratio) st log) =
  log ++ generateImage_entries w ai prompt ratio (calls is_generateImages log).
Proof.
  unfold generateImage, generateImage_entries, async_await, try_catch, trigger,
    generateImage_request.
  cbn.
  destruct (outcome (image_service w _ ai _)) as [[|bytes]|e]; cbn;
    unfold log_of; cbn [snd]; now rewrite <- ?app_assoc.
Qed.

Lemma fan_out_full_log posts : forall st log,
  log_of (run w (fan_out ai posts) st log) =
  log ++ fan_out_entries w ai (calls is_generateImages log) posts.
Proof.
  unfold fan_out.
  induction posts as [|post r IH]; intros st log.
  - cbn. now rewrite app_nil_r.
  - cbn [map sequence fan_out_entries].
    rewrite run_bind, run_bind, run_Ret.
    unfold log_of at 1. cbn [snd].
    rewrite IH.
    destruct (generateImage_log w ai (image_prompt post)
                (getAspectRatioForPlatform (platform post)) st log) as (Gc & _).
    rewrite Gc, generateImage_full_log. now rewrite <- app_assoc.
Qed.

Lemma generate_and_illustrate_full_log idea tone st log :
  calls is_generateContent log = 0 ->
  calls is_generateImages log = 0 ->
  log_of (run w (generate_and_illustrate ai idea tone) st log) =
  log ++ generateSocialPosts_entries w ai idea tone 0
  ++ match social_posts_outcome (content_service w 0 ai (content_request idea tone))
             (parse_json w) with
     | Throw e => []
     | Ok posts =>
         Exchange (setResults (Some (initial_results posts))) tt
         :: fan_out_entries w ai 0 posts
         ++ match Promise_all (image_promises w ai 0 posts) with
            | Throw e => []
            | Ok imageUrls =>
                [Exchange (setResults (Some (final_results posts imageUrls))) tt]
            end
     end.
Proof.
  intros Hc0 Hi0.
  pose proof (generateSocialPosts_value w ai idea tone st log) as Gv.
  pose proof (generateSocialPosts_full_log idea tone st log) as Gl.
  destruct (generateSocialPosts_log w ai idea tone st log) as (Gc & _).
  rewrite Hc0 in Gv, Gl. rewrite Hi0 in Gc.
  unfold generate_and_illustrate, await.
  rewrite !run_bind.
  destruct (run w (generateSocialPosts ai idea tone) st log) as [[v s] l].
  unfold value_of, state_of, log_of in *. cbn [fst snd run] in *. subst v l.
  cbn [outcome social_posts_promise].
  destruct (social_posts_outcome _ _) as [posts|e];
    [|cbn [run snd]; now rewrite app_nil_r].
  rewrite run_bind, run_trigger. cbn [handle fst snd].
  rewrite run_bind.
  change (sequence _) with (fan_out ai posts).
  set (l := log ++ generateSocialPosts_entries w ai idea tone 0) in *.
  destruct (fan_out_run w ai posts (with_results s (Some (initial_results posts)))
              (l ++ [Exchange (setResults (Some (initial_results posts))) tt]))
    as (Fv & _ & _ & _).
  pose proof (fan_out_full_log posts (with_results s (Some (initial_results posts)))
                (l ++ [Exchange (setResults (Some (initial_results posts))) tt])) as Fl.
  rewrite calls_snoc in Fv, Fl. cbn [is_generateImages] in Fv, Fl.
  rewrite Nat.add_0_r, Gc in Fv, Fl.
  destruct (run w (fan_out ai posts) _ _) as [[v s'] l'].
  unfold value_of, state_of, log_of in *. cbn [fst snd] in *. subst v l'.
  rewrite run_bind. unfold value_of, state_of, log_of. cbn [run fst snd].
  destruct (Promise_all _) as [imageUrls|e].
  - rewrite run_bind, run_trigger.
    unfold value_of, state_of, log_of. cbn [handle fst snd run].
    unfold l. rewrite <- !app_assoc. reflexivity.
  - cbn [run snd]. unfold l. rewrite <- !app_assoc. now rewrite app_nil_r.
Qed.

(** Every entry of the log of a request, in order. *)
Lemma handleGenerate_full_log idea tone st :
  truthy (trim idea) = true ->
  log_of (run w (handleGenerate ai idea tone) st []) = handleGenerate_entries w ai idea tone.
Proof.
  intros Hidea. unfold handleGenerate, handleGenerate_entries. rewrite Hidea. cbn [negb].
  rewrite !run_trigger_bind. cbn [handle fst snd app].
  unfold try_finally, try_catch. rewrite !run_bind.
  set (log0 := [_; _; _]).
  pose proof (@generate_and_illustrate_full_log idea tone (started st) log0
                eq_refl eq_refl) as Gl.
  pose proof (generate_and_illustrate_run w ai idea tone (started st) log0) as G.
  cbv zeta in G.
  change (calls is_generateContent log0) with 0 in G.
  change (calls is_generateImages log0) with 0 in G.
  fold (started st).
  destruct (run w (generate_and_illustrate ai idea tone) (started st) log0) as [[v s] l].
  unfold value_of, state_of, log_of in *. cbn [fst snd] in *. subst l.
  destruct (social_posts_outcome _ _) as [posts|e].
  - destruct (Promise_all _) as [imageUrls|e]; destruct G as [-> _].
    + cbn [run fst snd]. rewrite run_trigger. cbn [snd fst handle].
      unfold log0. join_lists.
    + rewrite !run_trigger_bind. cbn [handle fst snd run].
      rewrite run_trigger. cbn [snd fst handle].
      unfold log0, catch_entries. join_lists.
  - destruct G as [-> _].
    rewrite !run_trigger_bind. cbn [handle fst snd run].
    rewrite run_trigger. cbn [snd fst handle].
    unfold log0, catch_entries. join_lists.
Qed.

End FullLog.

(* ===================================================================== *)
(** * Reading the log *)
(* ===================================================================== *)

Section Observations.
Variable w : World.
Variable ai : GoogleGenAI.

Lemma state_updates_app l1 l2 :
  state_updates (l1 ++ l2) = state_updates l1 ++ state_updates l2.
Proof. apply flat_map_app. Qed.

Lemma console_errors_app l1 l2 :
  console_errors (l1 ++ l2) = console_errors l1 ++ console_errors l2.
Proof. apply flat_map_app. Qed.

Lemma content_calls_app l1 l2 :
  content_calls (l1 ++ l2) = content_calls l1 ++ content_calls l2.
Proof. apply flat_map_app. Qed.

Lemma generateSocialPosts_entries_quiet idea tone n :
  state_updates (generateSocialPosts_entries w ai idea tone n) = [] /\
  content_calls (generateSocialPosts_entries w ai idea tone n) = [content_request idea tone].
Proof.
  unfold generateSocialPosts_entries. cbv zeta.
  destruct (outcome (content_service w n ai _)) as [[[t|]]|e]; cbn;
    [destruct (parse_json w (trim t)) | | ]; split; reflexivity.
Qed.

(** [generateSocialPosts] writes one line to the console when it throws
    and none when it returns. *)
Lemma generateSocialPosts_entries_console idea tone n :
  map fst (console_errors (generateSocialPosts_entries w ai idea tone n)) =
  match social_posts_outcome (content_service w n ai (content_request idea tone))
          (parse_json w) with
  | Throw _ => [lit "Error generating social posts:"]
  | Ok _ => []
  end.
Proof.
  unfold generateSocialPosts_entries, social_posts_outcome. cbv zeta.
  destruct (outcome (content_service w n ai _)) as [[[t|]]|e]; cbn;
    [destruct (parse_json w (trim t)) | | ]; reflexivity.
Qed.

Lemma generateImage_entries_quiet prompt ratio n :
  state_updates (generateImage_entries w ai prompt ratio n) = [] /\
  content_calls (generateImage_entries w ai prompt ratio n) = [].
Proof.
  unfold generateImage_entries. cbv zeta.
  destruct (outcome (image_service w n ai _)) as [[|bytes]|e]; split; reflexivity.
Qed.

Lemma generateImage_entries_console prompt ratio n :
  map fst (console_errors (generateImage_entries w ai prompt ratio n)) =
  if image_call_failed (image_service w n ai (generateImage_request prompt ratio))
  then [lit "Error generating image:"] else [].
Proof.
  unfold generateImage_entries, image_call_failed. cbv zeta.
  destruct (outcome (image_service w n ai _)) as [[|bytes]|e]; reflexivity.
Qed.

Lemma fan_out_entries_quiet posts : forall n,
  state_updates (fan_out_entries w ai n posts) = [] /\
  content_calls (fan_out_entries w ai n posts) = [].
Proof.
  induction posts as [|post r IH]; intros n; [split; reflexivity|].
  cbn [fan_out_entries]. rewrite state_updates_app, content_calls_app.
  destruct (generateImage_entries_quiet (image_prompt post)
              (getAspectRatioForPlatform (platform post)) n) as (-> & ->).
  destruct (IH (S n)) as (-> & ->). split; reflexivity.
Qed.

Lemma fan_out_entries_console posts : forall n,
  map fst (console_errors (fan_out_entries w ai n posts)) =
  repeat (lit "Error generating image:")
    (List.length (filter (fun x => image_call_failed (snd x)) (image_calls w ai n posts))).
Proof.
  unfold image_calls.
  induction posts as [|post r IH]; intros n; [reflexivity|].
  cbn [fan_out_entries mapi_from filter snd].
  rewrite console_errors_app, map_app, generateImage_entries_console, IH.
  fold (image_request post).
  now destruct (image_call_failed (image_service w n ai (image_request post))).
Qed.

(** The setter calls of a request, in order. *)
Lemma handleGenerate_state_updates idea tone :
  state_updates (handleGenerate_entries w ai idea tone) =
  [Set_loading true; Set_error None; Set_results None]
  ++ match social_posts_outcome (content_service w 0 ai (content_request idea tone))
             (parse_json w) with
     | Throw e =>
         [Set_error (Some (or_else (message e) (lit "An unexpected error occurred.")));
          Set_results None]
     | Ok posts =>
         Set_results (Some (initial_results posts))
         :: match Promise_all (image_promises w ai 0 posts) with
            | Throw e =>
                [Set_error (Some (or_else (message e) (lit "An unexpected error occurred.")));
                 Set_results None]
            | Ok imageUrls => [Set_results (Some (final_results posts imageUrls))]
            end
     end
  ++ [Set_loading false].
Proof.
  unfold handleGenerate_entries. rewrite !state_updates_app.
  destruct (generateSocialPosts_entries_quiet idea tone 0) as (-> & _).
  destruct (social_posts_outcome _ _) as [posts|e]; [|reflexivity].
  change (state_updates (?x :: ?l)) with (state_updates ([x] ++ l)).
  rewrite !state_updates_app.
  destruct (fan_out_entries_quiet posts 0) as (-> & _).
  now destruct (Promise_all _).
Qed.


Lemma handleGenerate_console idea tone :
  map fst (console_errors (handleGenerate_entries w ai idea tone)) =
  match social_posts_outcome (content_service w 0 ai (content_request idea tone))
          (parse_json w) with
  | Throw _ => [lit "Error generating social posts:"]
  | Ok posts =>
      repeat (lit "Error generating image:")
        (List.length (filter (fun x => image_call_failed (snd x)) (image_calls w ai 0 posts)))
  end.
Proof.
  unfold handleGenerate_entries. rewrite !console_errors_app, !map_app.
  rewrite generateSocialPosts_entries_console.
  destruct (social_posts_outcome _ _) as [posts|e]; [|reflexivity].
  change (console_errors (?x :: ?l)) with (console_errors ([x] ++ l)).
  rewrite !console_errors_app, !map_app, fan_out_entries_console.
  destruct (Promise_all _); cbn; now rewrite !app_nil_r.
Qed.


End Observations.

(* ===================================================================== *)
(** * Ranks and platforms *)
(* ===================================================================== *)

Section Ranks.

Lemma jseq_sym a b : jseq a b = jseq b a.
Proof.
  unfold jseq.
  destruct (list_eq_dec N.eq_dec a b), (list_eq_dec N.eq_dec b a); congruence.
Qed.

Lemma jseq_eq a b : jseq a b = true <-> a = b.
Proof.
  unfold jseq. destruct (list_eq_dec N.eq_dec a b); split; congruence.
Qed.

(** [indexOf] in [platformOrder], by cases. *)
Lemma platform_rank_cases post :
  platform_rank post =
  (if jseq (platform post) LinkedIn then 0
   else if jseq (platform post) Twitter then 1
   else if jseq (platform post) Instagram then 2
   else -1)%Z.
Proof.
  unfold platform_rank, indexOf, platformOrder. cbn [indexOf_from].
  rewrite (jseq_sym LinkedIn), (jseq_sym Twitter), (jseq_sym Instagram).
  reflexivity.
Qed.

Lemma platform_rank_range post : (-1 <= platform_rank post <= 2)%Z.
Proof.
  rewrite platform_rank_cases.
  destruct (jseq (platform post) LinkedIn), (jseq (platform post) Twitter),
    (jseq (platform post) Instagram); lia.
Qed.

Lemma rank_unknown post :
  Z.eqb (platform_rank post) (-1) = negb (known_platform (platform post)).
Proof.
  rewrite platform_rank_cases. unfold known_platform.
  destruct (jseq (platform post) LinkedIn), (jseq (platform post) Twitter),
    (jseq (platform post) Instagram); reflexivity.
Qed.

Lemma rank_LinkedIn post :
  Z.eqb (platform_rank post) 0 = jseq (platform post) LinkedIn.
Proof.
  rewrite platform_rank_cases.
  destruct (jseq (platform post) LinkedIn), (jseq (platform post) Twitter),
    (jseq (platform post) Instagram); reflexivity.
Qed.

Lemma rank_Twitter post :
  Z.eqb (platform_rank post) 1 = jseq (platform post) Twitter.
Proof.
  rewrite platform_rank_cases.
  destruct (jseq (platform post) LinkedIn) eqn:H1.
  - apply jseq_eq in H1. rewrite H1. reflexivity.
  - destruct (jseq (platform post) Twitter), (jseq (platform post) Instagram); reflexivity.
Qed.

Lemma rank_Instagram post :
  Z.eqb (platform_rank post) 2 = jseq (platform post) Instagram.
Proof.
  rewrite platform_rank_cases.
  destruct (jseq (platform post) LinkedIn) eqn:H1.
  - apply jseq_eq in H1. rewrite H1. reflexivity.
  - destruct (jseq (platform post) Twitter) eqn:H2.
    + apply jseq_eq in H2. rewrite H2. reflexivity.
    + destruct (jseq (platform post) Instagram); reflexivity.
Qed.

Lemma filter_rank_below l k j :
  Forall (fun y => (k <= platform_rank y)%Z) l -> (j < k)%Z ->
  filter (fun p => Z.eqb (platform_rank p) j) l = [].
Proof.
  induction 1 as [|y r Hy _ IH]; intros Hj; [reflexivity|].
  cbn [filter]. destruct (Z.eqb_spec (platform_rank y) j); [lia | now apply IH].
Qed.

(** A list sorted by rank is its four rank groups, one after the other. *)
Lemma sorted_by_rank_groups l :
  StronglySorted rank_le l ->
  l = filter (fun p => Z.eqb (platform_rank p) (-1)) l
      ++ filter (fun p => Z.eqb (platform_rank p) 0) l
      ++ filter (fun p => Z.eqb (platform_rank p) 1) l
      ++ filter (fun p => Z.eqb (platform_rank p) 2) l.
Proof.
  induction 1 as [|x r Hr IH Hx]; [reflexivity|].
  assert (Hge : Forall (fun y => (platform_rank x <= platform_rank y)%Z) r) by exact Hx.
  pose proof (platform_rank_range x) as Hrange.
  cbn [filter].
  destruct (Z.eqb_spec (platform_rank x) (-1)), (Z.eqb_spec (platform_rank x) 0),
    (Z.eqb_spec (platform_rank x) 1), (Z.eqb_spec (platform_rank x) 2); try lia.
  - cbn [app]. now rewrite <- IH.
  - rewrite (filter_rank_below (j := (-1)%Z) Hge) in IH |- * by lia.
    cbn [app] in *. now rewrite <- IH.
  - rewrite (filter_rank_below (j := (-1)%Z) Hge) in IH |- * by lia.
    rewrite (filter_rank_below (j := 0%Z) Hge) in IH |- * by lia.
    cbn [app] in *. now rewrite <- IH.
  - rewrite (filter_rank_below (j := (-1)%Z) Hge) in IH |- * by lia.
    rewrite (filter_rank_below (j := 0%Z) Hge) in IH |- * by lia.
    rewrite (filter_rank_below (j := 1%Z) Hge) in IH |- * by lia.
    cbn [app] in *. now rewrite <- IH.
Qed.

End Ranks.

(* ===================================================================== *)
(** * Further properties of the services *)
(* ===================================================================== *)

(** X1: [generateImage] makes one image call.  When the service rejects
    it, or answers without a first image, the function logs the
    underlying error once and throws the generic image failure; otherwise
    it returns the data URL of the first image's bytes and logs nothing.
    The component state is not touched. *)
Theorem generateImage_failure_policy
    (w : World) (ai : GoogleGenAI) (prompt : jsstring) (ratio : AspectRatio)
    (st : AppState) (log : list Entry) :
  let reply := image_service w (calls is_generateImages log) ai
                 (generateImage_request prompt ratio) in
  let r := run w (generateImage ai prompt ratio) st log in
  state_of r = st /\
  image_exchanges (log_of r) =
    image_exchanges log ++ [(generateImage_request prompt ratio, reply)] /\
  match outcome reply with
  | Throw err =>
      outcome (value_of r) = Throw image_failure /\
      console_errors (log_of r) =
        console_errors log ++ [(lit "Error generating image:", err)]
  | Ok NoFirstImage =>
      outcome (value_of r) = Throw image_failure /\
      console_errors (log_of r) =
        console_errors log ++ [(lit "Error generating image:", TypeError)]
  | Ok (FirstImage bytes) =>
      outcome (value_of r) = Ok (lit "data:image/jpeg;base64," ++ template_value bytes) /\
      console_errors (log_of r) = console_errors log
  end /\
  message image_failure = lit "Failed to generate an image for the post.".
Proof.
  cbv zeta. split; [apply generateImage_state|].
  split; [apply generateImage_log|].
  split; [|reflexivity].
  rewrite generateImage_value, generateImage_full_log, console_errors_app.
  unfold generateImage_entries, image_promise. cbv zeta. cbn [outcome].
  destruct (outcome (image_service w _ ai _)) as [[|bytes]|e]; cbn;
    rewrite ?app_nil_r; split; reflexivity.
Qed.

(** X2: the sort of line 64 groups the response by platform: first the
    posts whose platform is none of the three, then the LinkedIn posts,
    the Twitter posts and the Instagram posts, each group in the order of
    the response. *)
Theorem Array_sort_groups_by_platform (posts : list PostContent) :
  Array_sort by_platformOrder posts =
  filter (fun post => negb (known_platform (platform post))) posts
  ++ posts_of LinkedIn posts ++ posts_of Twitter posts ++ posts_of Instagram posts.
Proof.
  rewrite (sorted_by_rank_groups (Array_sort_sorted posts)).
  rewrite !Array_sort_stable.
  unfold posts_of.
  rewrite (filter_ext _ _ rank_unknown), (filter_ext _ _ rank_LinkedIn),
    (filter_ext _ _ rank_Twitter), (filter_ext _ _ rank_Instagram).
  reflexivity.
Qed.

(** X3: a response that is already in platform order is returned as it
    is. *)
Theorem Array_sort_keeps_ordered_response (posts : list PostContent) :
  StronglySorted rank_le posts ->
  Array_sort by_platformOrder posts = posts.
Proof.
  induction 1 as [|x r Hr IH Hx]; [reflexivity|].
  cbn [Array_sort]. rewrite IH.
  destruct r as [|y r']; [reflexivity|].
  cbn [sort_insert].
  destruct (by_platformOrder x y >? 0)%Z eqn:Hc; [|reflexivity].
  apply by_platformOrder_gt in Hc. inversion Hx as [|? ? Hxy _]; subst.
  unfold rank_le, rank_lt in *. lia.
Qed.

Lemma Array_sort_keeps_ordered_response_witness :
  Array_sort by_platformOrder
    [Scenario.facebook_post; Example.linkedin_post; Example.linkedin_post;
     Example.instagram_post]
  = [Scenario.facebook_post; Example.linkedin_post; Example.linkedin_post;
     Example.instagram_post].
Proof.
  apply Array_sort_keeps_ordered_response.
  repeat constructor; unfold rank_le; vm_compute; discriminate.
Defined.

(* ===================================================================== *)
(** * Further properties of handleGenerate *)
(* ===================================================================== *)


(** X5: a request makes one image call per post that the text stage
    returned, in the order of the posts, each asking for that post's
    styled prompt at its platform's aspect ratio, whether or not other
    image calls fail; when the text stage fails it makes none. *)
Theorem image_calls_follow_the_posts (w : World) (ai : GoogleGenAI) (st : AppState) :
  truthy (trim (idea st)) = true ->
  match outcome (value_of (run w (generateSocialPosts ai (idea st) (tone st)) st [])) with
  | Throw _ => image_exchanges (snd (submit w ai st)) = []
  | Ok posts =>
      image_exchanges (snd (submit w ai st)) = image_calls w ai 0 posts /\
      map fst (image_exchanges (snd (submit w ai st))) = map image_request posts /\
      dispatched_image_prompts (snd (submit w ai st)) =
        map (fun post => styled_prompt (image_prompt post)) posts
  end.
Proof.
  intros Hidea.
  rewrite generateSocialPosts_returns.
  unfold dispatched_image_prompts.
  rewrite submit_log, (@handleGenerate_log w ai (idea st) (tone st) st Hidea).
  destruct (social_posts_outcome _ _) as [posts|e]; [|reflexivity].
  split; [reflexivity|].
  assert (H : forall n, map fst (image_calls w ai n posts) = map image_request posts).
  { unfold image_calls. induction posts as [|post r IH]; intros n; [reflexivity|].
    cbn [mapi_from map fst]. now rewrite IH. }
  split; [apply H|].
  rewrite <- (map_map fst (fun params => prompt params)), H, map_map. reflexivity.
Qed.

Lemma image_calls_follow_the_posts_witness :
  let w := Example.scripted Scenario.three_posts Scenario.first_and_third_fail in
  match outcome (value_of (run w (generateSocialPosts Example.ai (idea Example.fresh)
                                    (tone Example.fresh)) Example.fresh [])) with
  | Throw _ => image_exchanges (snd (submit w Example.ai Example.fresh)) = []
  | Ok posts =>
      image_exchanges (snd (submit w Example.ai Example.fresh))
        = image_calls w Example.ai 0 posts /\
      map fst (image_exchanges (snd (submit w Example.ai Example.fresh)))
        = map image_request posts /\
      dispatched_image_prompts (snd (submit w Example.ai Example.fresh)) =
        map (fun post => styled_prompt (image_prompt post)) posts
  end.
Proof.
  apply (@image_calls_follow_the_posts
           (Example.scripted Scenario.three_posts Scenario.first_and_third_fail)
           Example.ai Example.fresh).
  reflexivity.
Defined.

(** X6: from the first setter call of a request to the one before the
    last, every state has [loading] set, so every render in between
    disables the textarea and the button; the last state is the final
    one, and it enables them again. *)
Theorem controls_disabled_during_request (w : World) (ai : GoogleGenAI) (st : AppState) :
  truthy (trim (idea st)) = true ->
  let states := states_after st (state_updates (snd (submit w ai st))) in
  last states st = fst (submit w ai st) /\
  generate_disabled (render_App (fst (submit w ai st))) = false /\
  textarea_disabled (render_App (fst (submit w ai st))) = false /\
  Forall (fun s => generate_disabled (render_App s) = true /\
                   textarea_disabled (render_App s) = true)
         (removelast states).
Proof.
  intros Hidea. cbv zeta.
  rewrite submit_log, (@handleGenerate_full_log w ai (idea st) (tone st) st Hidea).
  rewrite handleGenerate_state_updates.
  rewrite submit_state, (@handleGenerate_run w ai (idea st) (tone st) st Hidea).
  destruct (social_posts_outcome _ _) as [posts|e];
    [destruct (Promise_all _) as [imageUrls|e]|];
    cbn; repeat split; repeat constructor.
Qed.

Lemma controls_disabled_during_request_witness :
  let w := Example.scripted Scenario.three_posts Example.second_image_rejected in
  let states := states_after Example.fresh
                  (state_updates (snd (submit w Example.ai Example.fresh))) in
  last states Example.fresh = fst (submit w Example.ai Example.fresh) /\
  generate_disabled (render_App (fst (submit w Example.ai Example.fresh))) = false /\
  textarea_disabled (render_App (fst (submit w Example.ai Example.fresh))) = false /\
  Forall (fun s => generate_disabled (render_App s) = true /\
                   textarea_disabled (render_App s) = true)
         (removelast states).
Proof.
  apply (@controls_disabled_during_request
           (Example.scripted Scenario.three_posts Example.second_image_rejected)
           Example.ai Example.fresh).
  reflexivity.
Defined.



Section SettleOrder.
Variable A : Type.

Lemma fulfilled_values_by_outcomes (ps1 : list (Promise A)) : forall ps2,
  map (@outcome A) ps1 = map (@outcome A) ps2 ->
  fulfilled_values ps1 = fulfilled_values ps2.
Proof.
  induction ps1 as [|p r IH]; intros [|q r']; simpl; try discriminate; [reflexivity|].
  intros [= Hpq Hr]. rewrite Hpq.
  destruct (outcome q); [f_equal|]; now apply IH.
Qed.

(** When every promise can only reject with [reason], the outcome of
    [Promise.all] depends on the outcomes of the promises and not on
    when they settle. *)
Lemma Promise_all_by_outcomes (ps1 ps2 : list (Promise A)) reason :
  (forall p e, In p ps1 -> outcome p = Throw e -> e = reason) ->
  (forall p e, In p ps2 -> outcome p = Throw e -> e = reason) ->
  map (@outcome A) ps1 = map (@outcome A) ps2 ->
  Promise_all ps1 = Promise_all ps2.
Proof.
  intros H1 H2 Hmap.
  assert (Hcross : forall qs rs t e,
             map (@outcome A) qs = map (@outcome A) rs ->
             first_rejection qs = Some (t, e) -> first_rejection rs = None -> False).
  { intros qs rs t e Hm Hq Hr.
    destruct (first_rejection_Some _ Hq) as (p & Hin & Hp).
    apply (in_map (@outcome A)) in Hin. rewrite Hm in Hin.
    apply in_map_iff in Hin. destruct Hin as (q & Hq' & Hin').
    destruct (first_rejection_None _ Hr _ Hin') as (a & Ha). congruence. }
  unfold Promise_all.
  destruct (first_rejection ps1) as [[t1 e1]|] eqn:F1;
    destruct (first_rejection ps2) as [[t2 e2]|] eqn:F2.
  - destruct (first_rejection_Some _ F1) as (p & Hp & Ho).
    destruct (first_rejection_Some _ F2) as (q & Hq & Ho').
    now rewrite (H1 _ _ Hp Ho), (H2 _ _ Hq Ho').
  - exfalso. exact (Hcross _ _ _ _ Hmap F1 F2).
  - exfalso. exact (Hcross _ _ _ _ (eq_sym Hmap) F2 F1).
  - f_equal. now apply fulfilled_values_by_outcomes.
Qed.

End SettleOrder.

Lemma image_promises_outcomes (w1 w2 : World) (ai : GoogleGenAI) posts :
  (forall n ai params,
      outcome (image_service w1 n ai params) = outcome (image_service w2 n ai params)) ->
  forall n,
    map (@outcome jsstring) (image_promises w1 ai n posts) =
    map (@outcome jsstring) (image_promises w2 ai n posts).
Proof.
  intros H. unfold image_promises.
  induction posts as [|post r IH]; intros n; [reflexivity|].
  cbn [mapi_from map]. rewrite IH. f_equal.
  unfold image_promise. cbn [outcome]. now rewrite H.
Qed.

(** X8: the final state of a submission does not depend on the order in
    which the replies arrive: two worlds that give the same answers at
    different times leave the same state. *)
Theorem arrival_order_does_not_matter (w1 w2 : World) (ai : GoogleGenAI) (st : AppState) :
  same_answers w1 w2 ->
  fst (submit w1 ai st) = fst (submit w2 ai st).
Proof.
  intros (Hc & Hi & Hp).
  destruct (truthy (trim (idea st))) eqn:Hidea.
  - rewrite !submit_state.
    rewrite (@handleGenerate_run w1 ai (idea st) (tone st) st Hidea).
    rewrite (@handleGenerate_run w2 ai (idea st) (tone st) st Hidea).
    assert (Hs : social_posts_outcome
                   (content_service w1 0 ai (content_request (idea st) (tone st)))
                   (parse_json w1)
                 = social_posts_outcome
                     (content_service w2 0 ai (content_request (idea st) (tone st)))
                     (parse_json w2)).
    { unfold social_posts_outcome. rewrite Hc.
      destruct (outcome (content_service w2 0 ai _)) as [response|e]; [|reflexivity].
      destruct (response_text response) as [t|]; [|reflexivity].
      now rewrite Hp. }
    rewrite Hs. clear Hs.
    destruct (social_posts_outcome _ _) as [posts|e]; [|reflexivity].
    rewrite (@Promise_all_by_outcomes _ (image_promises w1 ai 0 posts)
               (image_promises w2 ai 0 posts) image_failure).
    + reflexivity.
    + intros p e. apply image_promises_reason.
    + intros p e. apply image_promises_reason.
    + now apply image_promises_outcomes.
  - assert (Hb : blank (idea st)) by now apply guard_blank.
    unfold submit. now rewrite !(handleGenerate_blank ai (tone st) Hb).
Qed.

Lemma arrival_order_does_not_matter_witness :
  fst (submit (Example.scripted Scenario.three_posts Example.second_image_rejected)
              Example.ai Example.fresh)
  = fst (submit (Example.scripted Scenario.three_posts Scenario.second_image_rejected_late)
                Example.ai Example.fresh).
Proof.
  apply arrival_order_does_not_matter.
  repeat split; reflexivity.
Defined.

(** X9: nothing of the state before a request survives it: two
    submissions of the same idea and tone end in the same state and make
    the same calls, whatever results, error and loading flag were there
    before. *)
Theorem request_carries_nothing_over (w : World) (ai : GoogleGenAI) (st1 st2 : AppState) :
  idea st1 = idea st2 -> tone st1 = tone st2 ->
  truthy (trim (idea st1)) = true ->
  submit w ai st1 = submit w ai st2.
Proof.
  intros Hi Ht Hidea.
  assert (Hidea2 : truthy (trim (idea st2)) = true) by now rewrite <- Hi.
  apply injective_projections.
  - rewrite !submit_state.
    rewrite (@handleGenerate_run w ai (idea st1) (tone st1) st1 Hidea).
    rewrite (@handleGenerate_run w ai (idea st2) (tone st2) st2 Hidea2).
    rewrite <- Hi, <- Ht.
    destruct (social_posts_outcome _ _) as [posts|e];
      [destruct (Promise_all _) as [imageUrls|e]|];
      unfold failed, started, with_loading, with_results, with_error; cbn;
      now rewrite Hi, Ht.
  - rewrite !submit_log.
    rewrite (@handleGenerate_full_log w ai (idea st1) (tone st1) st1 Hidea).
    rewrite (@handleGenerate_full_log w ai (idea st2) (tone st2) st2 Hidea2).
    now rewrite Hi, Ht.
Qed.

Lemma request_carries_nothing_over_witness :
  submit (Example.scripted Scenario.three_posts Example.all_images)
         Example.ai Example.fresh
  = submit (Example.scripted Scenario.three_posts Example.all_images)
           Example.ai Scenario.after_failure.
Proof.
  apply request_carries_nothing_over; reflexivity.
Defined.

(* ===================================================================== *)
(** * The components *)
(* ===================================================================== *)

(** X10: [ToneSelector] shows the three tones in the order of the enum
    and highlights exactly one button, the one of the selected tone;
    after a click on any of its buttons, that button is the highlighted
    one. *)
Theorem ToneSelector_highlights_selected (st : AppState) :
  map button_children (tone_selector (render_App st)) =
    [lit "Professional"; lit "Witty"; lit "Urgent"] /\
  map button_onClick (filter highlighted (tone_selector (render_App st))) = [tone st] /\
  Forall (fun b =>
            map button_onClick
              (filter highlighted (tone_selector (render_App (select_tone st b))))
            = [button_onClick b])
         (tone_selector (render_App st)).
Proof.
  destruct st as [i t r l e]. cbn [render_App tone_selector tone select_tone].
  split; [reflexivity|].
  split; [destruct t; vm_compute; reflexivity|].
  unfold ToneSelector at 2. cbn [map Tone_keys].
  repeat constructor; cbn [button_onClick]; vm_compute; reflexivity.
Qed.

Section Cards.

Lemma platformConfig_unknown p :
  known_platform p = false -> ResultCard.platformConfig p = None.
Proof.
  unfold known_platform, ResultCard.platformConfig, LinkedIn, Twitter, Instagram.
  destruct (jseq p (lit "LinkedIn")), (jseq p (lit "Twitter")), (jseq p (lit "Instagram"));
    cbn; congruence.
Qed.


(** The final state of a request in which nothing failed. *)
Lemma successful_request_state (w : World) (ai : GoogleGenAI) (st : AppState) posts :
  truthy (trim (idea st)) = true ->
  outcome (value_of (run w (generateSocialPosts ai (idea st) (tone st)) st [])) = Ok posts ->
  (forall i post, nth_error posts i = Some post ->
                  image_call_failed (image_service w i ai (image_request post)) = false) ->
  exists imageUrls,
    fst (submit w ai st) =
      with_loading
        (with_results (with_results (started st) (Some (initial_results posts)))
           (Some (final_results posts imageUrls)))
        false /\
    forall i post, nth_error posts i = Some post ->
      exists bytes,
        outcome (image_service w i ai (image_request post)) = Ok (FirstImage bytes) /\
        nth_error imageUrls i = Some (lit "data:image/jpeg;base64," ++ template_value bytes).
Proof.
  intros Hidea Hposts Hall.
  rewrite submit_state, (@handleGenerate_run w ai (idea st) (tone st) st Hidea).
  rewrite generateSocialPosts_returns in Hposts. rewrite Hposts.
  destruct (image_promises_delivered w ai posts Hall) as (imageUrls & -> & Hurls).
  exists imageUrls. split; [reflexivity | exact Hurls].
Qed.

End Cards.

(** X11: a post whose platform is none of the three (and no property
    name inherited from [Object.prototype]) passes through the pipeline
    (its image is requested at 1:1 and the request ends without an
    error), but [ResultCard] throws when it renders that post. *)
Theorem unknown_platform_breaks_its_card
    (w : World) (ai : GoogleGenAI) (st : AppState)
    (posts : list PostContent) (post : PostContent) :
  truthy (trim (idea st)) = true ->
  outcome (value_of (run w (generateSocialPosts ai (idea st) (tone st)) st [])) = Ok posts ->
  (forall i p, nth_error posts i = Some p ->
               image_call_failed (image_service w i ai (image_request p)) = false) ->
  In post posts ->
  known_platform (platform post) = false ->
  inherited_property (platform post) = false ->
  aspectRatio (image_request post) = Ratio_1_1 /\
  error (fst (submit w ai st)) = None /\
  exists cards,
    result_cards (render_App (fst (submit w ai st))) = Some cards /\
    In (platform post, Throw TypeError) cards.
Proof.
  intros Hidea Hposts Hall Hin Hunknown Hown.
  split.
  { unfold image_request, generateImage_request, getAspectRatioForPlatform. cbn [aspectRatio].
    unfold known_platform, LinkedIn, Twitter, Instagram in Hunknown.
    destruct (jseq (platform post) (lit "LinkedIn")); [discriminate|].
    destruct (jseq (platform post) (lit "Twitter")); [discriminate|].
    now destruct (jseq (platform post) (lit "Instagram")). }
  destruct (successful_request_state w ai st Hidea Hposts Hall) as (imageUrls & -> & _).
  split; [reflexivity|].
  eexists. split; [reflexivity|].
  apply In_nth_error in Hin. destruct Hin as (i & Hi).
  pose proof (final_results_nth posts imageUrls i Hi) as Hn.
  apply nth_error_In in Hn.
  apply (in_map (fun result : GenerationResult =>
                   (platform result, render_ResultCard result))) in Hn.
  unfold render_ResultCard in Hn. cbn [content platform] in Hn.
  now rewrite (platformConfig_unknown _ Hunknown), Hown in Hn.
Qed.

Lemma unknown_platform_breaks_its_card_witness :
  let w := Example.scripted [Example.twitter_post; Scenario.facebook_post]
             Example.all_images in
  aspectRatio (image_request Scenario.facebook_post) = Ratio_1_1 /\
  error (fst (submit w Example.ai Example.fresh)) = None /\
  exists cards,
    result_cards (render_App (fst (submit w Example.ai Example.fresh))) = Some cards /\
    In (platform Scenario.facebook_post, Throw TypeError) cards.
Proof.
  apply (@unknown_platform_breaks_its_card
           (Example.scripted [Example.twitter_post; Scenario.facebook_post]
              Example.all_images)
           Example.ai Example.fresh
           [Scenario.facebook_post; Example.twitter_post] Scenario.facebook_post).
  - reflexivity.
  - vm_compute. reflexivity.
  - intros i p _. reflexivity.
  - now left.
  - reflexivity.
  - reflexivity.
Defined.





(** X14: every call that fails is written to the console, once: a
    request whose text stage fails logs one line under the label of
    [generateSocialPosts]; otherwise it logs one line under the label of
    [generateImage] per failed image call, those after the first failure
    included, and none when every image arrives. *)
Theorem every_failed_call_is_logged (w : World) (ai : GoogleGenAI) (st : AppState) :
  truthy (trim (idea st)) = true ->
  map fst (console_errors (snd (submit w ai st))) =
  match outcome (value_of (run w (generateSocialPosts ai (idea st) (tone st)) st [])) with
  | Throw _ => [lit "Error generating social posts:"]
  | Ok posts =>
      repeat (lit "Error generating image:")
        (List.length (filter (fun x => image_call_failed (snd x)) (image_calls w ai 0 posts)))
  end.
Proof.
  intros Hidea.
  rewrite submit_log, (@handleGenerate_full_log w ai (idea st) (tone st) st Hidea).
  rewrite generateSocialPosts_returns. apply handleGenerate_console.
Qed.

Lemma every_failed_call_is_logged_witness :
  let w := Example.scripted Scenario.three_posts Scenario.first_and_third_fail in
  map fst (console_errors (snd (submit w Example.ai Example.fresh))) =
  match outcome (value_of (run w (generateSocialPosts Example.ai (idea Example.fresh)
                                    (tone Example.fresh)) Example.fresh [])) with
  | Throw _ => [lit "Error generating social posts:"]
  | Ok posts =>
      repeat (lit "Error generating image:")
        (List.length (filter (fun x => image_call_failed (snd x))
                        (image_calls w Example.ai 0 posts)))
  end.
Proof.
  apply (@every_failed_call_is_logged
           (Example.scripted Scenario.three_posts Scenario.first_and_third_fail)
           Example.ai Example.fresh).
  reflexivity.
Defined.
